(** * 3dChess: a shallow embedding of the rules engine

    The development follows [board.py], [pieces.py] and [utils.py].

    - Python integers are unbounded: coordinates live in [Z].
    - A [Position] is a tuple of three integers, compared by value.
    - [Piece] objects are mutable and shared by reference: the board's
      dictionary stores references, and [move_piece] writes the [position]
      attribute of the object it moved.  The model therefore keeps a store
      [objs] from references to objects next to the board, and every
      operation threads the whole program state.
    - The dictionary [_pieces] is a [gmap] keyed by positions. *)

From Stdlib Require Import ZArith Lia String.
From stdpp Require Import gmap strings list fin_maps.

Open Scope Z_scope.

(** ** Data model *)

Definition Position : Type := Z * Z * Z.

(** The six subclasses of [Piece]. *)
Inductive PieceKind := Pawn | Rook | Knight | Bishop | Queen | King.

Global Instance PieceKind_eq_dec : EqDecision PieceKind.
Proof. solve_decision. Defined.

(** The attributes of a [Piece] object; [kind] is its class.  Colours are
    Python strings (['W'] and ['B'] in the game). *)
Record Piece := mkPiece {
  kind : PieceKind;
  color : string;
  position : Position
}.

(** References to [Piece] objects. *)
Definition ref : Type := nat.

(** The attributes of a [Board].  [_board] is the numpy grid of objects: a
    cell holding [None] is absent from the map. *)
Record Board := mkBoard {
  _nx : Z;
  _ny : Z;
  _nz : Z;
  _board : gmap Position ref;
  _pieces : gmap Position ref
}.

(** Program state: the store of [Piece] objects, the first reference not yet
    allocated, and the board.  A Python reference always denotes a live
    object, so the store is total. *)
Record State := mkState {
  objs : ref -> Piece;
  next_ref : ref;
  board : Board
}.

(** Writing the object behind [r]. *)
Definition store (r : ref) (o : Piece) (h : ref -> Piece) : ref -> Piece :=
  fun r' => if Nat.eqb r' r then o else h r'.

Definition with_board (b : Board) (s : State) : State :=
  mkState (objs s) (next_ref s) b.

Definition with_pieces (g m : gmap Position ref) (b : Board) : Board :=
  mkBoard (_nx b) (_ny b) (_nz b) g m.

(** [piece.position = p] on the object behind [r]. *)
Definition set_position (r : ref) (p : Position) (s : State) : State :=
  let o := objs s r in
  mkState (store r (mkPiece (kind o) (color o) p) (objs s)) (next_ref s) (board s).

(** Exceptions and results of calls that may raise. *)
Inductive Exn := ValueError (msg : string).

Inductive Res (A : Type) :=
| Ok (a : A)
| Raise (e : Exn).
Arguments Ok {A} a.
Arguments Raise {A} e.

Definition bind {A B} (m : Res A) (k : A -> Res B) : Res B :=
  match m with
  | Ok a => k a
  | Raise e => Raise e
  end.

Notation "'call' x <~ m 'in' k" := (bind m (fun x => k))
  (at level 10, x pattern, m at level 200, k at level 200, only parsing).

(** ** board.py: queries *)

(** [Board.is_within_bounds] *)
Definition is_within_bounds (b : Board) (position : Position) : bool :=
  let '(x, y, z) := position in
  (0 <=? x) && (x <? _nx b) && (0 <=? y) && (y <? _ny b) && (0 <=? z) && (z <? _nz b).

(** [Board.get_piece]: [dict.get], [None] when the key is absent. *)
Definition get_piece (b : Board) (position : Position) : option ref :=
  _pieces b !! position.

(** Truth value of an [Optional[Piece]]: [Piece] defines neither [__bool__]
    nor [__len__], so every object is true and only [None] is false. *)
Definition truthy (piece : option ref) : bool :=
  match piece with Some _ => true | None => false end.

(** ** utils.py *)

(** The body of [for step in range(1, steps)], run [n] times from the cell
    [cur], advancing by [stp]. *)
Fixpoint walk (b : Board) (n : nat) (cur stp : Position) : bool :=
  match n with
  | O => true
  | S n' =>
      if negb (is_within_bounds b cur) then false
      else if truthy (get_piece b cur) then false
      else
        let '(x, y, z) := cur in
        let '(x_step, y_step, z_step) := stp in
        walk b n' (x + x_step, y + y_step, z + z_step) stp
  end.

(** The shape test of [is_clear_path], as written there. *)
Definition line_or_diagonal (dx dy dz : Z) : bool :=
  ((dx =? 0) || (dy =? 0) || (dz =? 0))
  || ((Z.abs dx =? Z.abs dy) && (Z.abs dy =? Z.abs dz) && negb (Z.abs dz =? 0))
  || ((Z.abs dx =? Z.abs dy) && negb (Z.abs dy =? 0) && (dz =? 0))
  || ((Z.abs dx =? Z.abs dz) && negb (Z.abs dz =? 0) && (dy =? 0))
  || ((Z.abs dy =? Z.abs dz) && negb (Z.abs dz =? 0) && (dx =? 0)).

(** [is_clear_path].  Python's [//] is floor division, which is [Z.div];
    [steps] is non-zero where it divides, and nothing in the body can raise
    on integer triples, so the [except] branch is never taken. *)
Definition is_clear_path (b : Board) (from_pos to_pos : Position) : bool :=
  let '(fx, fy, fz) := from_pos in
  let '(tx, ty, tz) := to_pos in
  let dx := tx - fx in
  let dy := ty - fy in
  let dz := tz - fz in
  let steps := Z.max (Z.max (Z.abs dx) (Z.abs dy)) (Z.abs dz) in
  if steps =? 0 then true
  else
    let x_step := if negb (dx =? 0) then dx / steps else 0 in
    let y_step := if negb (dy =? 0) then dy / steps else 0 in
    let z_step := if negb (dz =? 0) then dz / steps else 0 in
    if negb (line_or_diagonal dx dy dz) then false
    else
      walk b (Z.to_nat (steps - 1))
        (fx + x_step, fy + y_step, fz + z_step) (x_step, y_step, z_step).

(** ** pieces.py *)

Definition Position_eqb (p q : Position) : bool := bool_decide (p = q).

(** [not target_piece or target_piece.color != self.color] *)
Definition empty_or_enemy (s : State) (self_color : string) (target_piece : option ref) : bool :=
  match target_piece with
  | None => true
  | Some t => negb (String.eqb (color (objs s t)) self_color)
  end.

(** [target_piece and target_piece.color != self.color] *)
Definition enemy (s : State) (self_color : string) (target_piece : option ref) : bool :=
  match target_piece with
  | None => false
  | Some t => negb (String.eqb (color (objs s t)) self_color)
  end.

(** [Pawn._is_valid_move] *)
Definition Pawn_is_valid_move (s : State) (self : Piece) (to_position : Position) : bool :=
  let '(fx, fy, fz) := position self in
  let '(tx, ty, tz) := to_position in
  let direction := if String.eqb (color self) "W" then 1 else -1 in
  let dx := tx - fx in
  let dy := ty - fy in
  let dz := tz - fz in
  if (dx =? direction) && (dy =? 0) && (dz =? 0)
     && negb (truthy (get_piece (board s) to_position)) then true
  else if (dx =? direction) && (Z.abs dy =? 1) && (dz =? 0) then
    enemy s (color self) (get_piece (board s) to_position)
  else false.

(** [Rook._is_valid_move] *)
Definition Rook_is_valid_move (s : State) (self : Piece) (to_position : Position) : bool :=
  let '(fx, fy, fz) := position self in
  let '(tx, ty, tz) := to_position in
  if ((fx =? tx) && (fy =? ty) && negb (fz =? tz))
     || ((fx =? tx) && negb (fy =? ty) && (fz =? tz))
     || (negb (fx =? tx) && (fy =? ty) && (fz =? tz))
  then
    if is_clear_path (board s) (position self) to_position then
      empty_or_enemy s (color self) (get_piece (board s) to_position)
    else false
  else false.

(** [Knight._is_valid_move] *)
Definition Knight_is_valid_move (s : State) (self : Piece) (to_position : Position) : bool :=
  let '(fx, fy, fz) := position self in
  let '(tx, ty, tz) := to_position in
  let dx := Z.abs (tx - fx) in
  let dy := Z.abs (ty - fy) in
  let dz := Z.abs (tz - fz) in
  if dx ^ 2 + dy ^ 2 + dz ^ 2 =? 5 then
    empty_or_enemy s (color self) (get_piece (board s) to_position)
  else false.

(** The diagonal test shared, textually, by [Bishop] and [Queen]. *)
Definition diagonal (dx dy dz : Z) : bool :=
  ((Z.abs dx =? Z.abs dy) && (Z.abs dy =? Z.abs dz) && negb (Z.abs dz =? 0))
  || ((Z.abs dx =? Z.abs dy) && negb (Z.abs dy =? 0) && (dz =? 0))
  || ((Z.abs dx =? Z.abs dz) && negb (Z.abs dz =? 0) && (dy =? 0))
  || ((Z.abs dy =? Z.abs dz) && negb (Z.abs dz =? 0) && (dx =? 0)).

(** [Bishop._is_valid_move] *)
Definition Bishop_is_valid_move (s : State) (self : Piece) (to_position : Position) : bool :=
  let '(fx, fy, fz) := position self in
  let '(tx, ty, tz) := to_position in
  let dx := tx - fx in
  let dy := ty - fy in
  let dz := tz - fz in
  if diagonal dx dy dz then
    if is_clear_path (board s) (position self) to_position then
      empty_or_enemy s (color self) (get_piece (board s) to_position)
    else false
  else false.

(** [Queen._is_valid_move] *)
Definition Queen_is_valid_move (s : State) (self : Piece) (to_position : Position) : bool :=
  let '(fx, fy, fz) := position self in
  let '(tx, ty, tz) := to_position in
  let dx := tx - fx in
  let dy := ty - fy in
  let dz := tz - fz in
  if ((fx =? tx) || (fy =? ty) || (fz =? tz)) || diagonal dx dy dz then
    if is_clear_path (board s) (position self) to_position then
      empty_or_enemy s (color self) (get_piece (board s) to_position)
    else false
  else false.

(** [King._is_valid_move] *)
Definition King_is_valid_move (s : State) (self : Piece) (to_position : Position) : bool :=
  let '(fx, fy, fz) := position self in
  let '(tx, ty, tz) := to_position in
  let dx := Z.abs (tx - fx) in
  let dy := Z.abs (ty - fy) in
  let dz := Z.abs (tz - fz) in
  if Z.max (Z.max dx dy) dz =? 1 then
    empty_or_enemy s (color self) (get_piece (board s) to_position)
  else false.

(** Dynamic dispatch of the abstract method [_is_valid_move] on the class. *)
Definition _is_valid_move (s : State) (self : Piece) (to_position : Position) : bool :=
  match kind self with
  | Pawn => Pawn_is_valid_move s self to_position
  | Rook => Rook_is_valid_move s self to_position
  | Knight => Knight_is_valid_move s self to_position
  | Bishop => Bishop_is_valid_move s self to_position
  | Queen => Queen_is_valid_move s self to_position
  | King => King_is_valid_move s self to_position
  end.

(** [Piece.is_valid_move], called on the object behind [self]. *)
Definition is_valid_move (s : State) (self : ref) (to_position : Position) : bool :=
  if negb (is_within_bounds (board s) to_position) then false
  else if Position_eqb (position (objs s self)) to_position then false
  else _is_valid_move s (objs s self) to_position.

(** The dictionary [piece_classes] of [PieceFactory.create_piece]. *)
Definition piece_classes (piece_type : string) : option PieceKind :=
  if String.eqb piece_type "P" then Some Pawn
  else if String.eqb piece_type "R" then Some Rook
  else if String.eqb piece_type "N" then Some Knight
  else if String.eqb piece_type "B" then Some Bishop
  else if String.eqb piece_type "Q" then Some Queen
  else if String.eqb piece_type "K" then Some King
  else None.

(** Construction of an object: it gets the first free reference. *)
Definition alloc (o : Piece) (s : State) : State :=
  mkState (store (next_ref s) o (objs s)) (S (next_ref s)) (board s).

(** [PieceFactory.create_piece]: allocates the object, or raises. *)
Definition create_piece (piece_type clr : string) (pos : Position) (s : State)
  : Res (ref * State) :=
  match piece_classes piece_type with
  | Some piece_class => Ok (next_ref s, alloc (mkPiece piece_class clr pos) s)
  | None => Raise (ValueError ("Unknown piece type: " ++ piece_type))
  end.

(** ** board.py: mutators *)

(** [Board.set_piece].  Inside the bounds the index into the numpy grid is
    valid, so the assignment to [_board] cannot raise. *)
Definition set_piece (pos : Position) (piece : option ref) (s : State) : State :=
  let b := board s in
  if is_within_bounds b pos then
    match piece with
    | Some r =>
        with_board (with_pieces (<[pos := r]> (_board b)) (<[pos := r]> (_pieces b)) b) s
    | None =>
        with_board (with_pieces (delete pos (_board b)) (delete pos (_pieces b)) b) s
    end
  else s.

(** [Board.move_piece]: the returned boolean and the state it leaves. *)
Definition move_piece (from_pos to_pos : Position) (s : State) : bool * State :=
  match get_piece (board s) from_pos with
  | Some piece =>
      if is_valid_move s piece to_pos then
        let s1 := set_piece to_pos (Some piece) s in
        let s2 := set_piece from_pos None s1 in
        (true, set_position piece to_pos s2)
      else (false, s)
  | None => (false, s)
  end.

(** [self._pieces.values()]; the answer of [is_game_over] does not depend on
    the order of the values. *)
Definition values (b : Board) : list ref := (map_to_list (_pieces b)).*2.

Definition is_King (k : PieceKind) : bool :=
  match k with King => true | _ => false end.

(** [Board.is_game_over].  The annotation [List[Piece]] on the local variable
    is not evaluated inside a function, and the comprehensions cannot raise,
    so the [except] branch is never taken. *)
Definition is_game_over (opponent_color : string) (s : State) : bool :=
  let opponent_pieces :=
    List.filter (fun piece => String.eqb (color (objs s piece)) opponent_color)
                (values (board s)) in
  let opponent_kings :=
    List.filter (fun piece => is_King (kind (objs s piece))) opponent_pieces in
  match opponent_kings with
  | [] => true
  | _ :: _ => false
  end.

(** [range(n)] *)
Definition range (n : Z) : list Z := Z.of_nat <$> seq 0 (Z.to_nat n).

(** A [for] loop whose body may raise. *)
Fixpoint for_each {A} (l : list A) (body : A -> State -> Res State) (s : State)
  : Res State :=
  match l with
  | [] => Ok s
  | a :: l' => call s1 <~ body a s in for_each l' body s1
  end.

(** [piece = factory.create_piece(t, color, position)] followed by
    [self.set_piece(position, piece)]. *)
Definition place (piece_type clr : string) (pos : Position) (s : State) : Res State :=
  call (piece, s1) <~ create_piece piece_type clr pos s in
  Ok (set_piece pos (Some piece) s1).

(** [Board._place_pieces] *)
Definition _place_pieces (clr : string) (start_x : Z) (s : State) : Res State :=
  let ny := _ny (board s) in
  let nz := _nz (board s) in
  let direction := if String.eqb clr "W" then 1 else -1 in
  let pawn_row := start_x + direction in
  call s <~ for_each (range ny) (fun y =>
              for_each (range nz) (fun z => place "P" clr (pawn_row, y, z))) s in
  let rook_positions :=
    [(start_x, 0, 0); (start_x, 0, nz - 1);
     (start_x, ny - 1, 0); (start_x, ny - 1, nz - 1)] in
  call s <~ for_each rook_positions (place "R" clr) s in
  let knight_positions :=
    [(start_x, 0, 1); (start_x, 0, nz - 2);
     (start_x, ny - 1, 1); (start_x, ny - 1, nz - 2)] in
  call s <~ for_each knight_positions (place "N" clr) s in
  let bishop_positions :=
    [(start_x, 0, 2); (start_x, 0, nz - 3);
     (start_x, ny - 1, 2); (start_x, ny - 1, nz - 3)] in
  call s <~ for_each bishop_positions (place "B" clr) s in
  let center_y := ny / 2 in
  let center_z := nz / 2 in
  let queen_positions :=
    [(start_x, center_y - 1, center_z - 1); (start_x, center_y - 1, center_z)] in
  call s <~ for_each queen_positions (place "Q" clr) s in
  let king_positions :=
    [(start_x, center_y, center_z - 1); (start_x, center_y, center_z)] in
  for_each king_positions (place "K" clr) s.

(** [Board.initialize_board] *)
Definition initialize_board (s : State) : Res State :=
  call s <~ _place_pieces "W" 0 s in
  _place_pieces "B" (_nx (board s) - 1) s.

(** [Board.__init__]: numpy refuses negative dimensions; otherwise the grid
    and the dictionary start empty and the board is populated. *)
Definition Board_init (nx ny nz : Z) (s : State) : Res State :=
  if (nx <? 0) || (ny <? 0) || (nz <? 0) then
    Raise (ValueError "negative dimensions are not allowed")
  else initialize_board (with_board (mkBoard nx ny nz ∅ ∅) s).

(** The state of a program that has created no piece and no board yet. *)
Definition boot : State :=
  mkState (fun _ => mkPiece Pawn "" (0, 0, 0)) 0%nat (mkBoard 0 0 0 ∅ ∅).

(** [_board.fill(None)] and [_pieces.clear()], as the tests' [setUp] does. *)
Definition clear (s : State) : State :=
  with_board (with_pieces ∅ ∅ (board s)) s.

(** State left by a call that did not raise. *)
Definition result (s0 : State) (m : Res State) : State :=
  match m with
  | Ok s => s
  | Raise _ => s0
  end.

(** [Board()] with the default dimensions. *)
Definition fresh : State := result boot (Board_init 8 4 4 boot).

(** The tests build their positions on a cleared default board with
    [create_piece] followed by [set_piece]. *)
Definition put (piece_type clr : string) (pos : Position) (s : State) : State :=
  result s (place piece_type clr pos s).

(** The board of the tests' [setUp]: default dimensions, grid and dictionary
    emptied.  The pieces of the initial layout are unreachable by then and
    are left out of the store. *)
Definition empty_board : State := with_board (mkBoard 8 4 4 ∅ ∅) boot.

(** ** Conditions in the words of the specification *)

Definition delta (o t : Position) : Position :=
  let '(fx, fy, fz) := o in
  let '(tx, ty, tz) := t in
  (tx - fx, ty - fy, tz - fz).

(** Rook: exactly one axis has a non-zero delta. *)
Definition rook_condition (d : Position) : Prop :=
  let '(dx, dy, dz) := d in
  (dx <> 0 /\ dy = 0 /\ dz = 0) \/ (dx = 0 /\ dy <> 0 /\ dz = 0)
  \/ (dx = 0 /\ dy = 0 /\ dz <> 0).

(** Bishop: two axes equal in absolute non-zero delta and the third zero, or
    all three equal in absolute non-zero delta. *)
Definition bishop_condition (d : Position) : Prop :=
  let '(dx, dy, dz) := d in
  (Z.abs dx = Z.abs dy /\ dx <> 0 /\ dz = 0)
  \/ (Z.abs dx = Z.abs dz /\ dx <> 0 /\ dy = 0)
  \/ (Z.abs dy = Z.abs dz /\ dy <> 0 /\ dx = 0)
  \/ (Z.abs dx = Z.abs dy /\ Z.abs dy = Z.abs dz /\ dx <> 0).

(** Knight: the absolute deltas are 0, 1 and 2 in some order. *)
Definition knight_condition (d : Position) : Prop :=
  let '(dx, dy, dz) := d in
  let a := Z.abs dx in
  let b := Z.abs dy in
  let c := Z.abs dz in
  (a = 0 /\ b = 1 /\ c = 2) \/ (a = 0 /\ b = 2 /\ c = 1)
  \/ (a = 1 /\ b = 0 /\ c = 2) \/ (a = 2 /\ b = 0 /\ c = 1)
  \/ (a = 1 /\ b = 2 /\ c = 0) \/ (a = 2 /\ b = 1 /\ c = 0).

(** The destination is empty or holds a piece of another colour. *)
Definition lands (s : State) (self : ref) (t : Position) : Prop :=
  match get_piece (board s) t with
  | None => True
  | Some q => color (objs s q) <> color (objs s self)
  end.

(** ** Properties of states *)

(** Every key of the occupancy map is inside the cuboid. *)
Definition keys_in_bounds (s : State) : Prop :=
  map_Forall (fun k (_ : ref) => is_within_bounds (board s) k = true)
             (_pieces (board s)).

Global Instance keys_in_bounds_dec (s : State) : Decision (keys_in_bounds s).
Proof. unfold keys_in_bounds. apply _. Defined.

(** Objects that existed in [s0] are as they were in [s0]. *)
Definition keeps_objects (s0 s : State) : Prop :=
  (next_ref s0 <= next_ref s)%nat
  /\ forall r, (r < next_ref s0)%nat -> objs s r = objs s0 r.

(** ** Sequences of operations *)

(** What a client does with a board: re-run the initial layout, obtain a
    piece from the factory, place or clear a cell, move. *)
Inductive Op :=
| Initialize
| Create (piece_type clr : string) (pos : Position)
| SetPiece (pos : Position) (piece : option ref)
| MovePiece (from_pos to_pos : Position).

(** One operation; a call that raises leaves the state as it was. *)
Definition step (op : Op) (s : State) : State :=
  match op with
  | Initialize => result s (initialize_board s)
  | Create piece_type clr pos =>
      result s (call (_, s1) <~ create_piece piece_type clr pos s in Ok s1)
  | SetPiece pos piece => set_piece pos piece s
  | MovePiece from_pos to_pos => snd (move_piece from_pos to_pos s)
  end.

Fixpoint run (ops : list Op) (s : State) : State :=
  match ops with
  | [] => s
  | op :: ops' => run ops' (step op s)
  end.

(** A client can only pass a piece that exists. *)
Definition passes_object (op : Op) (s : State) : bool :=
  match op with
  | SetPiece _ (Some r) => (r <? next_ref s)%nat
  | _ => true
  end.

(** [set_piece] is given a piece whose cached position is the cell. *)
Definition passes_synced (op : Op) (s : State) : bool :=
  match op with
  | SetPiece pos (Some r) =>
      (r <? next_ref s)%nat && Position_eqb (position (objs s r)) pos
  | _ => true
  end.

(** [ok] holds of every operation in the state it is run in. *)
Fixpoint along (ok : Op -> State -> bool) (ops : list Op) (s : State) : bool :=
  match ops with
  | [] => true
  | op :: ops' => ok op s && along ok ops' (step op s)
  end.

(** The cached position of every stored piece is its key. *)
Definition cache_synced (s : State) : Prop :=
  map_Forall (fun k r => position (objs s r) = k) (_pieces (board s)).

(** Every stored reference has been allocated. *)
Definition refs_allocated (s : State) : Prop :=
  map_Forall (fun (_ : Position) r => (r < next_ref s)%nat) (_pieces (board s)).

Definition Inv (s : State) : Prop :=
  keys_in_bounds s /\ refs_allocated s /\ cache_synced s.

(** The sentence of the specification about a successful move, read with
    Python's object identity: the previous occupant of [to_pos] is under no
    key afterwards. *)
Definition move_postcondition (s : State) (from_pos to_pos : Position) : Prop :=
  fst (move_piece from_pos to_pos s) = true ->
  let s' := snd (move_piece from_pos to_pos s) in
  exists piece,
    get_piece (board s) from_pos = Some piece
    /\ (forall prev, get_piece (board s) to_pos = Some prev ->
                     forall k, get_piece (board s') k <> Some prev)
    /\ get_piece (board s') from_pos = None
    /\ get_piece (board s') to_pos = Some piece
    /\ position (objs s' piece) = to_pos.

(** A white rook at (0,0,0) and one black pawn object stored under (0,0,3)
    and, by a second [set_piece], under (0,1,0). *)
Definition shared_pawn : State :=
  set_piece (0, 1, 0) (Some 1%nat)
    (put "P" "B" (0, 0, 3) (put "R" "W" (0, 0, 0) empty_board)).

(** ** Further notions used in the statements *)

(** The dimensions of the cuboid. *)
Definition dims (b : Board) : Z * Z * Z := (_nx b, _ny b, _nz b).

(** The grid and the dictionary hold the same pieces at the same cells. *)
Definition mirror (s : State) : Prop :=
  _board (board s) = _pieces (board s).

(** No [Piece] object is stored under two keys. *)
Definition unshared (s : State) : Prop :=
  forall (k1 k2 : Position) (r : ref),
    get_piece (board s) k1 = Some r -> get_piece (board s) k2 = Some r -> k1 = k2.

(** Number of steps of a slide: the largest absolute delta. *)
Definition distance (o t : Position) : Z :=
  let '(dx, dy, dz) := delta o t in
  Z.max (Z.max (Z.abs dx) (Z.abs dy)) (Z.abs dz).

(** The cell [i] unit steps away from [o] towards [t]. *)
Definition interior (o t : Position) (i : Z) : Position :=
  let '(fx, fy, fz) := o in
  let '(dx, dy, dz) := delta o t in
  (fx + i * Z.sgn dx, fy + i * Z.sgn dy, fz + i * Z.sgn dz).

(** The pawn's forward direction along x. *)
Definition forward (clr : string) : Z :=
  if String.eqb clr "W" then 1 else -1.

(** The cell [p] holds a piece of class [kd] and colour [clr] whose cached
    position is [p]. *)
Definition holds (s : State) (p : Position) (kd : PieceKind) (clr : string) : Prop :=
  exists r, get_piece (board s) p = Some r
            /\ (r < next_ref s)%nat
            /\ objs s r = mkPiece kd clr p.

(** The six tags the factory knows. *)
Definition known_tags : list string := ["P"; "R"; "N"; "B"; "Q"; "K"]%string.

(** * Properties *)

(** Closed goals are settled by evaluation. *)
Ltac closed :=
  vm_compute;
  first [ reflexivity | exact I | discriminate | (intros; discriminate) ].

(** ** The initial layout *)

(** On the default board the bishops' cells are the knights' cells
    ([nz - 3 = 1] and [nz - 2 = 2]): 64 pieces are created, 56 stay. *)
Example fresh_size :
  size (_pieces (board fresh)) = 56%nat /\ next_ref fresh = 64%nat.
Proof. vm_compute. split; reflexivity. Qed.

Example fresh_rook :
  get_piece (board fresh) (0, 0, 0) = Some 16%nat /\ kind (objs fresh 16%nat) = Rook.
Proof. vm_compute. split; reflexivity. Qed.

(** Emptying the fresh board gives the board the examples start from. *)
Example clear_fresh : board (clear fresh) = board empty_board.
Proof. reflexivity. Qed.

(** ** Path clearance *)

(** C10. For every board and every position [p], [is_clear_path] from [p] to
    [p] returns [True]: the zero-delta case is a trivially clear path. *)
Theorem is_clear_path_same (b : Board) (p : Position) :
  is_clear_path b p p = true.
Proof.
  destruct p as [[x y] z]. unfold is_clear_path.
  rewrite !Z.sub_diag. reflexivity.
Qed.

(** C3, at the input of [test_is_clear_path_invalid_movement]. On the empty
    default board the irregular vector from (0,0,0) to (2,1,0) passes the
    shape test, because one of its deltas is zero, and the walk visits the
    single empty cell (1,0,0): [is_clear_path] answers [True], where the
    claim and the test expect [False]. *)
Theorem is_clear_path_irregular :
  ~ rook_condition (delta (0, 0, 0) (2, 1, 0))
  /\ ~ bishop_condition (delta (0, 0, 0) (2, 1, 0))
  /\ is_clear_path (board empty_board) (0, 0, 0) (2, 1, 0) = true.
Proof.
  split; [|split].
  - simpl. lia.
  - simpl. lia.
  - vm_compute. reflexivity.
Qed.

(** Every vector with a zero delta passes the shape test, whatever the other
    two deltas are. *)
Lemma line_or_diagonal_zero (dx dy : Z) : line_or_diagonal dx dy 0 = true.
Proof. unfold line_or_diagonal. cbn [Z.eqb]. rewrite orb_true_r. reflexivity. Qed.

(** ** Queen *)

(** C1, at the input of [test_queen_invalid_moves]. A white queen alone at
    (0,0,0) on the default board is allowed to go to (2,1,0), a destination
    that meets neither the rook condition nor the bishop condition: the
    queen's shape test accepts any move that keeps one coordinate. *)
Theorem Queen_accepts_irregular :
  let s := put "Q" "W" (0, 0, 0) empty_board in
  let queen := 0%nat in
  get_piece (board s) (0, 0, 0) = Some queen
  /\ kind (objs s queen) = Queen
  /\ position (objs s queen) = (0, 0, 0)
  /\ is_within_bounds (board s) (2, 1, 0) = true
  /\ ~ rook_condition (delta (0, 0, 0) (2, 1, 0))
  /\ ~ bishop_condition (delta (0, 0, 0) (2, 1, 0))
  /\ is_valid_move s queen (2, 1, 0) = true.
Proof.
  repeat split; try (vm_compute; reflexivity); simpl; lia.
Qed.

(** ** Pawn *)

(** C2, at the input of the capture test of the first implementation
    ([old-3D-chess/test.py]). A white pawn at (1,0,0) may not capture the
    black pawn at (2,0,1): the step has the forward x-delta, z-delta 1 and
    y-delta 0, but the capture branch asks for [abs(dy) == 1 and dz == 0]
    only. *)
Theorem Pawn_rejects_z_capture :
  let s := put "P" "B" (2, 0, 1) (put "P" "W" (1, 0, 0) empty_board) in
  let pawn := 0%nat in
  let target := 1%nat in
  get_piece (board s) (1, 0, 0) = Some pawn
  /\ objs s pawn = mkPiece Pawn "W" (1, 0, 0)
  /\ get_piece (board s) (2, 0, 1) = Some target
  /\ color (objs s target) = "B"
  /\ delta (1, 0, 0) (2, 0, 1) = (1, 0, 1)
  /\ is_valid_move s pawn (2, 0, 1) = false
  /\ fst (move_piece (1, 0, 0) (2, 0, 1) s) = false.
Proof.
  repeat split; vm_compute; reflexivity.
Qed.

(** No pawn move with a non-zero z-delta is accepted. *)
Lemma Pawn_is_valid_move_dz (s : State) (self : Piece) (t : Position) :
  Pawn_is_valid_move s self t = true ->
  let '(_, _, dz) := delta (position self) t in dz = 0.
Proof.
  unfold Pawn_is_valid_move, delta.
  destruct (position self) as [[fx fy] fz], t as [[tx ty] tz].
  destruct (Z.eqb_spec (tz - fz) 0) as [E|E]; [intros _; exact E|].
  rewrite !andb_false_r. cbn [andb]. discriminate.
Qed.

(** ** Shared checks of [is_valid_move] *)

Lemma Position_eqb_false (p q : Position) : p <> q -> Position_eqb p q = false.
Proof. intros H. unfold Position_eqb. apply bool_decide_eq_false. exact H. Qed.

Lemma Position_eqb_true (p : Position) : Position_eqb p p = true.
Proof. unfold Position_eqb. apply bool_decide_eq_true. reflexivity. Qed.

(** In bounds and away from the origin, the answer is the class's. *)
Lemma is_valid_move_dispatch (s : State) (self : ref) (t : Position) :
  is_within_bounds (board s) t = true ->
  t <> position (objs s self) ->
  is_valid_move s self t = _is_valid_move s (objs s self) t.
Proof.
  intros Hb Hne. unfold is_valid_move. rewrite Hb. simpl.
  rewrite Position_eqb_false by congruence. reflexivity.
Qed.

Lemma is_valid_move_out_of_bounds (s : State) (self : ref) (t : Position) :
  is_within_bounds (board s) t = false -> is_valid_move s self t = false.
Proof. intros Hb. unfold is_valid_move. rewrite Hb. reflexivity. Qed.

Lemma is_valid_move_same (s : State) (self : ref) :
  is_valid_move s self (position (objs s self)) = false.
Proof.
  unfold is_valid_move. rewrite Position_eqb_true.
  destruct (negb _); reflexivity.
Qed.

Lemma empty_or_enemy_lands (s : State) (self : ref) (t : Position) :
  empty_or_enemy s (color (objs s self)) (get_piece (board s) t) = true
  <-> lands s self t.
Proof.
  unfold empty_or_enemy, lands. destruct (get_piece (board s) t) as [q|].
  - rewrite negb_true_iff. rewrite String.eqb_neq. reflexivity.
  - tauto.
Qed.

(** ** Knight *)

Lemma sq_abs (a : Z) : Z.abs a ^ 2 = a ^ 2.
Proof. rewrite !Z.pow_2_r. apply Z.abs_square. Qed.

Lemma sum_squares_5 (dx dy dz : Z) :
  dx ^ 2 + dy ^ 2 + dz ^ 2 = 5 <-> knight_condition (dx, dy, dz).
Proof.
  unfold knight_condition.
  rewrite <- (sq_abs dx), <- (sq_abs dy), <- (sq_abs dz).
  pose proof (Z.abs_nonneg dx) as Hx.
  pose proof (Z.abs_nonneg dy) as Hy.
  pose proof (Z.abs_nonneg dz) as Hz.
  generalize dependent (Z.abs dx). generalize dependent (Z.abs dy).
  generalize dependent (Z.abs dz). intros c Hc b Hb a Ha.
  split.
  - intros H.
    assert (a <= 2) by nia. assert (b <= 2) by nia. assert (c <= 2) by nia.
    assert (Ea : a = 0 \/ a = 1 \/ a = 2) by lia.
    assert (Eb : b = 0 \/ b = 1 \/ b = 2) by lia.
    assert (Ec : c = 0 \/ c = 1 \/ c = 2) by lia.
    destruct Ea as [-> | [-> | ->]], Eb as [-> | [-> | ->]], Ec as [-> | [-> | ->]];
      simpl in H; try discriminate; lia.
  - intros [H | [H | [H | [H | [H | H]]]]]; destruct H as (-> & -> & ->); reflexivity.
Qed.

(** C8. For a knight at origin [o] and an in-bounds destination [t <> o]:
    the move is accepted iff the squared length of the delta is 5 and [t] is
    empty or holds a piece of another colour; the squared length is 5 iff
    the absolute deltas are 0, 1 and 2 in some order; and the answer is the
    same in every state that agrees on the knight and on the occupant of [t]
    (no other cell is consulted). *)
Theorem Knight_move_spec (s : State) (self : ref) (t : Position) :
  kind (objs s self) = Knight ->
  is_within_bounds (board s) t = true ->
  t <> position (objs s self) ->
  let '(dx, dy, dz) := delta (position (objs s self)) t in
  (is_valid_move s self t = true
   <-> dx ^ 2 + dy ^ 2 + dz ^ 2 = 5 /\ lands s self t)
  /\ (dx ^ 2 + dy ^ 2 + dz ^ 2 = 5 <-> knight_condition (dx, dy, dz))
  /\ (forall s' : State,
        is_within_bounds (board s') t = true ->
        objs s' self = objs s self ->
        get_piece (board s') t = get_piece (board s) t ->
        (forall q, get_piece (board s) t = Some q ->
                   color (objs s' q) = color (objs s q)) ->
        is_valid_move s' self t = is_valid_move s self t).
Proof.
  intros Hk Hb Hne.
  destruct (position (objs s self)) as [[fx fy] fz] eqn:Ho.
  destruct t as [[tx ty] tz]. cbn [delta].
  assert (Hcode : forall s0 : State, objs s0 self = objs s self ->
            is_within_bounds (board s0) (tx, ty, tz) = true ->
            is_valid_move s0 self (tx, ty, tz) =
            if (tx - fx) ^ 2 + (ty - fy) ^ 2 + (tz - fz) ^ 2 =? 5
            then empty_or_enemy s0 (color (objs s0 self))
                   (get_piece (board s0) (tx, ty, tz))
            else false).
  { intros s0 Hs0 Hb0. rewrite is_valid_move_dispatch; [|assumption|].
    - unfold _is_valid_move. rewrite !Hs0, Hk. unfold Knight_is_valid_move.
      rewrite Ho. rewrite !sq_abs. reflexivity.
    - rewrite Hs0, Ho. exact Hne. }
  split; [|split].
  - rewrite (Hcode s eq_refl Hb).
    destruct (Z.eqb_spec ((tx - fx) ^ 2 + (ty - fy) ^ 2 + (tz - fz) ^ 2) 5) as [E|E].
    + rewrite empty_or_enemy_lands. tauto.
    + split; [discriminate | tauto].
  - apply sum_squares_5.
  - intros s' Hb' Hself Hget Hcol.
    rewrite (Hcode s' Hself Hb'), (Hcode s eq_refl Hb).
    destruct (_ =? 5); [|reflexivity].
    rewrite Hget, Hself. unfold empty_or_enemy.
    destruct (get_piece (board s) (tx, ty, tz)) as [q|] eqn:Hq; [|reflexivity].
    rewrite (Hcol q eq_refl). reflexivity.
Qed.

(** A knight at (1,1,1) jumps over the pawn at (2,1,1), as in
    [test_knight_jumping]. *)
Lemma Knight_move_spec_witness :
  let s := put "P" "B" (2, 1, 1) (put "N" "W" (1, 1, 1) empty_board) in
  is_valid_move s 0%nat (3, 2, 1) = true.
Proof.
  intros s.
  assert (Hk : kind (objs s 0%nat) = Knight) by closed.
  assert (Hb : is_within_bounds (board s) (3, 2, 1) = true) by closed.
  assert (Hne : (3, 2, 1) <> position (objs s 0%nat)) by closed.
  destruct (Knight_move_spec s 0%nat (3, 2, 1) Hk Hb Hne) as [Hiff _].
  apply Hiff. split; closed.
Defined.

(** ** Game over *)

Lemma filter_nil_iff {A} (f : A -> bool) (l : list A) :
  List.filter f l = [] <-> forall x, In x l -> f x = false.
Proof.
  induction l as [|a l IH]; simpl.
  - split; [intros _ x [] | reflexivity].
  - destruct (f a) eqn:Ha.
    + split; [discriminate|]. intros H. specialize (H a (or_introl eq_refl)). congruence.
    + rewrite IH. split.
      * intros H x [<-|Hx]; [assumption | apply H, Hx].
      * intros H x Hx. apply H. right. exact Hx.
Qed.

Lemma In_values (b : Board) (r : ref) :
  In r (values b) <-> exists k, _pieces b !! k = Some r.
Proof.
  unfold values. rewrite <- list_elem_of_In, list_elem_of_fmap. split.
  - intros [[k r'] [-> H]]. exists k. apply elem_of_map_to_list in H. exact H.
  - intros [k H]. exists (k, r). split; [reflexivity|].
    apply elem_of_map_to_list. exact H.
Qed.

Lemma is_King_true (k : PieceKind) : is_King k = true <-> k = King.
Proof. destruct k; simpl; split; congruence. Qed.

(** C7. For every state and every colour [c], [is_game_over c] returns
    [True] iff no entry of the occupancy map is a piece of colour [c] whose
    class is [King]. *)
Theorem is_game_over_spec (s : State) (c : string) :
  is_game_over c s = true
  <-> forall (k : Position) (r : ref),
        _pieces (board s) !! k = Some r ->
        ~ (color (objs s r) = c /\ kind (objs s r) = King).
Proof.
  unfold is_game_over.
  set (kings := List.filter _ (List.filter _ _)).
  assert (Hnil : kings = [] <->
            forall r, In r (values (board s)) ->
              ~ (color (objs s r) = c /\ kind (objs s r) = King)).
  { unfold kings. rewrite filter_nil_iff. split.
    - intros H r Hr [Hc Hk].
      assert (Hin : In r (List.filter
                (fun piece => String.eqb (color (objs s piece)) c)
                (values (board s)))).
      { apply filter_In. split; [exact Hr|]. apply String.eqb_eq, Hc. }
      specialize (H r Hin). apply is_King_true in Hk. congruence.
    - intros H r Hr. apply filter_In in Hr as [Hr Hc].
      apply String.eqb_eq in Hc.
      destruct (is_King (kind (objs s r))) eqn:Hk; [|reflexivity].
      apply is_King_true in Hk. exfalso. apply (H r Hr). split; assumption. }
  transitivity (kings = []).
  - destruct kings; split; congruence.
  - rewrite Hnil. split.
    + intros H k r Hk. apply H. apply In_values. exists k. exact Hk.
    + intros H r Hr. apply In_values in Hr as [k Hk]. apply (H k r Hk).
Qed.

(** ** [set_piece] *)

Lemma set_piece_objs (p : Position) (piece : option ref) (s : State) :
  objs (set_piece p piece s) = objs s.
Proof.
  unfold set_piece. destruct (is_within_bounds _ _); [|reflexivity].
  destruct piece; reflexivity.
Qed.

Lemma set_piece_next_ref (p : Position) (piece : option ref) (s : State) :
  next_ref (set_piece p piece s) = next_ref s.
Proof.
  unfold set_piece. destruct (is_within_bounds _ _); [|reflexivity].
  destruct piece; reflexivity.
Qed.

Lemma set_piece_bounds (p : Position) (piece : option ref) (s : State) (q : Position) :
  is_within_bounds (board (set_piece p piece s)) q = is_within_bounds (board s) q.
Proof.
  unfold set_piece. destruct (is_within_bounds (board s) p); [|reflexivity].
  destruct piece; reflexivity.
Qed.

Lemma get_set_piece_Some (p : Position) (r : ref) (s : State) (q : Position) :
  is_within_bounds (board s) p = true ->
  get_piece (board (set_piece p (Some r) s)) q =
  if decide (p = q) then Some r else get_piece (board s) q.
Proof.
  intros Hb. unfold set_piece. rewrite Hb. unfold get_piece. simpl.
  rewrite lookup_insert. reflexivity.
Qed.

Lemma get_set_piece_None (p : Position) (s : State) (q : Position) :
  is_within_bounds (board s) p = true ->
  get_piece (board (set_piece p None s)) q =
  if decide (p = q) then None else get_piece (board s) q.
Proof.
  intros Hb. unfold set_piece. rewrite Hb. unfold get_piece. simpl.
  rewrite lookup_delete. reflexivity.
Qed.

Lemma set_piece_out_of_bounds (p : Position) (piece : option ref) (s : State) :
  is_within_bounds (board s) p = false -> set_piece p piece s = s.
Proof. intros Hb. unfold set_piece. rewrite Hb. reflexivity. Qed.

(** C9. For an in-bounds position [p] and a piece [q], [set_piece] stores
    [q] under [p] and writes no [Piece] object, so the cached position of
    [q] is what it was: when it differed from [p] before the call, [q] is
    now stored under a key that differs from its cached position. *)
Theorem set_piece_keeps_cache (s : State) (p : Position) (q : ref) :
  is_within_bounds (board s) p = true ->
  get_piece (board (set_piece p (Some q) s)) p = Some q
  /\ objs (set_piece p (Some q) s) = objs s
  /\ position (objs (set_piece p (Some q) s) q) = position (objs s q)
  /\ (position (objs s q) <> p ->
      position (objs (set_piece p (Some q) s) q) <> p).
Proof.
  intros Hb. rewrite set_piece_objs. repeat split.
  - rewrite get_set_piece_Some by exact Hb. rewrite decide_True; reflexivity.
  - tauto.
Qed.

(** A pawn created for (0,0,0), as in [test_set_piece_out_of_bounds], and
    placed at (3,1,1). *)
Lemma set_piece_keeps_cache_witness :
  let s := result empty_board
             (call (_, s1) <~ create_piece "P" "W" (0, 0, 0) empty_board in Ok s1) in
  let s' := set_piece (3, 1, 1) (Some 0%nat) s in
  get_piece (board s') (3, 1, 1) = Some 0%nat
  /\ position (objs s' 0%nat) = (0, 0, 0).
Proof.
  intros s s'.
  assert (Hb : is_within_bounds (board s) (3, 1, 1) = true) by closed.
  destruct (set_piece_keeps_cache s (3, 1, 1) 0%nat Hb) as (Hg & _ & Hp & _).
  split; [exact Hg|]. etransitivity; [exact Hp | closed].
Defined.

(** ** [move_piece] *)

Lemma empty_or_enemy_self (s : State) (self : ref) :
  empty_or_enemy s (color (objs s self)) (Some self) = false.
Proof. simpl. rewrite String.eqb_refl. reflexivity. Qed.

Lemma enemy_self (s : State) (self : ref) :
  enemy s (color (objs s self)) (Some self) = false.
Proof. simpl. rewrite String.eqb_refl. reflexivity. Qed.

(** No piece may move onto the cell it is stored under: the occupant of the
    destination is the piece itself, which has its own colour.  This covers
    a piece whose cached position is not the key it is stored under. *)
Lemma is_valid_move_onto_self (s : State) (self : ref) (t : Position) :
  get_piece (board s) t = Some self -> is_valid_move s self t = false.
Proof.
  intros Hget. unfold is_valid_move.
  destruct (negb _); [reflexivity|].
  destruct (Position_eqb _ _); [reflexivity|].
  unfold _is_valid_move.
  destruct (kind (objs s self));
    unfold Pawn_is_valid_move, Rook_is_valid_move, Knight_is_valid_move,
      Bishop_is_valid_move, Queen_is_valid_move, King_is_valid_move;
    destruct (position (objs s self)) as [[fx fy] fz];
    destruct t as [[tx ty] tz];
    rewrite Hget; rewrite ?empty_or_enemy_self, ?enemy_self.
  - cbn [truthy negb]. rewrite andb_false_r.
    destruct (_ && _); reflexivity.
  - destruct (_ || _); [|reflexivity]. destruct (is_clear_path _ _ _); reflexivity.
  - destruct (_ =? 5); reflexivity.
  - destruct (diagonal _ _ _); [|reflexivity]. destruct (is_clear_path _ _ _); reflexivity.
  - destruct (_ || _); [|reflexivity]. destruct (is_clear_path _ _ _); reflexivity.
  - destruct (_ =? 1); reflexivity.
Qed.

(** C6. Whenever [get_piece(from_pos)] is [None], or [to_pos] is [from_pos],
    or [to_pos] is out of bounds, or the movement predicate of the piece at
    [from_pos] rejects [to_pos], [move_piece] returns [False] and leaves the
    whole state, the occupancy map included, exactly as it was. *)
Theorem move_piece_rejected (s : State) (from_pos to_pos : Position) :
  get_piece (board s) from_pos = None
  \/ to_pos = from_pos
  \/ is_within_bounds (board s) to_pos = false
  \/ (exists piece, get_piece (board s) from_pos = Some piece
                    /\ is_valid_move s piece to_pos = false) ->
  move_piece from_pos to_pos s = (false, s)
  /\ _pieces (board (snd (move_piece from_pos to_pos s))) = _pieces (board s).
Proof.
  intros H.
  assert (E : move_piece from_pos to_pos s = (false, s)).
  { unfold move_piece.
    destruct (get_piece (board s) from_pos) as [piece|] eqn:Hget; [|reflexivity].
    assert (Hv : is_valid_move s piece to_pos = false).
    { destruct H as [H | [-> | [H | (p & Hp & Hv)]]].
      - discriminate.
      - apply is_valid_move_onto_self, Hget.
      - apply is_valid_move_out_of_bounds, H.
      - congruence. }
    rewrite Hv. reflexivity. }
  rewrite E. split; reflexivity.
Qed.

(** The rook of [test_move_piece_invalid] does not go from (0,0,0) to
    (1,1,1). *)
Lemma move_piece_rejected_witness :
  let s := put "R" "W" (0, 0, 0) empty_board in
  move_piece (0, 0, 0) (1, 1, 1) s = (false, s).
Proof.
  intros s.
  apply (move_piece_rejected s (0, 0, 0) (1, 1, 1)).
  right. right. right. exists 0%nat. split; closed.
Defined.

Lemma move_piece_true (s : State) (from_pos to_pos : Position) :
  fst (move_piece from_pos to_pos s) = true ->
  exists piece,
    get_piece (board s) from_pos = Some piece
    /\ is_valid_move s piece to_pos = true
    /\ snd (move_piece from_pos to_pos s) =
       set_position piece to_pos
         (set_piece from_pos None (set_piece to_pos (Some piece) s)).
Proof.
  unfold move_piece.
  destruct (get_piece (board s) from_pos) as [piece|]; [|discriminate].
  destruct (is_valid_move s piece to_pos) eqn:Hv; [|discriminate].
  intros _. exists piece. split; [reflexivity | split; [exact Hv | reflexivity]].
Qed.

Lemma is_valid_move_true (s : State) (self : ref) (t : Position) :
  is_valid_move s self t = true ->
  is_within_bounds (board s) t = true /\ t <> position (objs s self).
Proof.
  unfold is_valid_move.
  destruct (is_within_bounds (board s) t); [|discriminate].
  unfold Position_eqb. case_bool_decide; [discriminate|].
  intros _. split; [reflexivity | congruence].
Qed.

(** The occupancy map after a successful move. *)
Lemma get_piece_moved (s : State) (from_pos to_pos k : Position) (piece : ref) :
  is_within_bounds (board s) from_pos = true ->
  is_within_bounds (board s) to_pos = true ->
  get_piece
    (board (set_position piece to_pos
              (set_piece from_pos None (set_piece to_pos (Some piece) s)))) k =
  if decide (from_pos = k) then None
  else if decide (to_pos = k) then Some piece
  else get_piece (board s) k.
Proof.
  intros Hf Ht. cbn [set_position board].
  rewrite get_set_piece_None by (rewrite set_piece_bounds; exact Hf).
  rewrite get_set_piece_Some by exact Ht. reflexivity.
Qed.

Lemma objs_moved (s : State) (from_pos to_pos : Position) (piece r : ref) :
  objs (set_position piece to_pos
          (set_piece from_pos None (set_piece to_pos (Some piece) s))) r =
  if Nat.eqb r piece
  then mkPiece (kind (objs s piece)) (color (objs s piece)) to_pos
  else objs s r.
Proof.
  unfold set_position. cbn [objs]. rewrite !set_piece_objs. reflexivity.
Qed.

(** The rook takes the pawn at (0,0,3); the same pawn object is still on the
    board, under (0,1,0). *)
Lemma move_piece_shared_capture :
  ~ move_postcondition shared_pawn (0, 0, 0) (0, 0, 3).
Proof.
  intros H.
  assert (Ht : fst (move_piece (0, 0, 0) (0, 0, 3) shared_pawn) = true) by closed.
  destruct (H Ht) as (piece & _ & Hprev & _).
  apply (Hprev 1%nat ltac:(closed) (0, 1, 0)). closed.
Qed.

(** C5, amended. In a state whose occupied keys are in bounds, if
    [move_piece] returns [True] then afterwards [get_piece(from_pos)] is
    [None], [get_piece(to_pos)] is the moved piece, the cached position of
    the moved piece is [to_pos], and the previous occupant of [to_pos], if
    any, is no longer stored under [to_pos]; it is under no key at all when
    [to_pos] was the only key it was stored under. *)
Theorem move_piece_success (s : State) (from_pos to_pos : Position) :
  keys_in_bounds s ->
  fst (move_piece from_pos to_pos s) = true ->
  let s' := snd (move_piece from_pos to_pos s) in
  exists piece,
    get_piece (board s) from_pos = Some piece
    /\ get_piece (board s') from_pos = None
    /\ get_piece (board s') to_pos = Some piece
    /\ position (objs s' piece) = to_pos
    /\ forall prev, get_piece (board s) to_pos = Some prev ->
         get_piece (board s') to_pos <> Some prev
         /\ ((forall k, get_piece (board s) k = Some prev -> k = to_pos) ->
             forall k, get_piece (board s') k <> Some prev).
Proof.
  intros Hkeys Hmove s'.
  destruct (move_piece_true s from_pos to_pos Hmove) as (piece & Hget & Hv & Es).
  subst s'. rewrite Es.
  destruct (is_valid_move_true s piece to_pos Hv) as [Hto _].
  assert (Hfrom : is_within_bounds (board s) from_pos = true)
    by exact (Hkeys from_pos piece Hget).
  assert (Hne : from_pos <> to_pos).
  { intros ->. rewrite (is_valid_move_onto_self s piece to_pos Hget) in Hv.
    discriminate. }
  exists piece. split; [exact Hget|].
  rewrite !(get_piece_moved s from_pos to_pos) by assumption.
  rewrite objs_moved, Nat.eqb_refl.
  rewrite decide_True by reflexivity.
  rewrite decide_False by exact Hne. rewrite decide_True by reflexivity.
  split; [reflexivity|]. split; [reflexivity|]. split; [reflexivity|].
  intros prev Hprev.
  assert (Hpp : prev <> piece).
  { intros ->. rewrite (is_valid_move_onto_self s piece to_pos Hprev) in Hv.
    discriminate. }
  split; [congruence|].
  intros Honly k. rewrite (get_piece_moved s from_pos to_pos) by assumption.
  destruct (decide (from_pos = k)); [discriminate|].
  destruct (decide (to_pos = k)); [congruence|].
  intros Hk. apply Honly in Hk. congruence.
Qed.

(** The capture of [test_pawn_capture]: the white pawn at (1,1,1) takes the
    black pawn at (2,2,1). *)
Lemma move_piece_success_witness :
  let s := put "P" "B" (2, 2, 1) (put "P" "W" (1, 1, 1) empty_board) in
  let s' := snd (move_piece (1, 1, 1) (2, 2, 1) s) in
  exists piece,
    get_piece (board s) (1, 1, 1) = Some piece
    /\ get_piece (board s') (1, 1, 1) = None
    /\ get_piece (board s') (2, 2, 1) = Some piece
    /\ position (objs s' piece) = (2, 2, 1)
    /\ forall prev, get_piece (board s) (2, 2, 1) = Some prev ->
         get_piece (board s') (2, 2, 1) <> Some prev
         /\ ((forall k, get_piece (board s) k = Some prev -> k = (2, 2, 1)) ->
             forall k, get_piece (board s') k <> Some prev).
Proof.
  intros s.
  apply (move_piece_success s (1, 1, 1) (2, 2, 1)).
  - apply (bool_decide_unpack _). vm_compute. exact I.
  - closed.
Defined.

(** ** Invariants *)

(** *** Preservation by the single assignments *)

Lemma Inv_alloc (o : Piece) (s : State) : Inv s -> Inv (alloc o s).
Proof.
  intros (Hk & Ha & Hc). split; [|split]; intros k r Hkr; cbn in *.
  - exact (Hk k r Hkr).
  - specialize (Ha k r Hkr). cbn in Ha. lia.
  - specialize (Ha k r Hkr). cbn in Ha. unfold store.
    destruct (Nat.eqb_spec r (next_ref s)); [lia|]. exact (Hc k r Hkr).
Qed.

Lemma keys_in_bounds_set_piece (p : Position) (piece : option ref) (s : State) :
  keys_in_bounds s -> keys_in_bounds (set_piece p piece s).
Proof.
  intros Hk k r. rewrite set_piece_bounds.
  destruct (is_within_bounds (board s) p) eqn:Hp.
  - destruct piece as [q|].
    + change (_pieces (board (set_piece p (Some q) s)) !! k)
        with (get_piece (board (set_piece p (Some q) s)) k).
      rewrite get_set_piece_Some by exact Hp.
      destruct (decide (p = k)) as [<-|]; [intros _; exact Hp | apply Hk].
    + change (_pieces (board (set_piece p None s)) !! k)
        with (get_piece (board (set_piece p None s)) k).
      rewrite get_set_piece_None by exact Hp.
      destruct (decide (p = k)); [discriminate | apply Hk].
  - rewrite set_piece_out_of_bounds by exact Hp. apply Hk.
Qed.

Lemma Inv_set_piece_Some (p : Position) (q : ref) (s : State) :
  Inv s -> (q < next_ref s)%nat -> position (objs s q) = p ->
  Inv (set_piece p (Some q) s).
Proof.
  intros (Hk & Ha & Hc) Hq Hpos.
  split; [apply keys_in_bounds_set_piece, Hk|].
  destruct (is_within_bounds (board s) p) eqn:Hp;
    [|rewrite set_piece_out_of_bounds by exact Hp; split; assumption].
  split; intros k r;
    change (_pieces (board (set_piece p (Some q) s)) !! k)
      with (get_piece (board (set_piece p (Some q) s)) k);
    rewrite get_set_piece_Some by exact Hp;
    rewrite ?set_piece_next_ref, ?set_piece_objs;
    destruct (decide (p = k)) as [<-|].
  - intros [= <-]. exact Hq.
  - apply Ha.
  - intros [= <-]. exact Hpos.
  - apply Hc.
Qed.

Lemma Inv_set_piece_None (p : Position) (s : State) :
  Inv s -> Inv (set_piece p None s).
Proof.
  intros (Hk & Ha & Hc).
  split; [apply keys_in_bounds_set_piece, Hk|].
  destruct (is_within_bounds (board s) p) eqn:Hp;
    [|rewrite set_piece_out_of_bounds by exact Hp; split; assumption].
  split; intros k r;
    change (_pieces (board (set_piece p None s)) !! k)
      with (get_piece (board (set_piece p None s)) k);
    rewrite get_set_piece_None by exact Hp;
    rewrite ?set_piece_next_ref, ?set_piece_objs;
    (destruct (decide (p = k)); [discriminate|]).
  - apply Ha.
  - apply Hc.
Qed.

Lemma move_piece_bounds (s : State) (from_pos to_pos q : Position) :
  is_within_bounds (board (snd (move_piece from_pos to_pos s))) q =
  is_within_bounds (board s) q.
Proof.
  unfold move_piece. destruct (get_piece (board s) from_pos); [|reflexivity].
  destruct (is_valid_move s r to_pos); [|reflexivity].
  cbn [snd set_position board]. rewrite !set_piece_bounds. reflexivity.
Qed.

Lemma keys_in_bounds_move_piece (s : State) (from_pos to_pos : Position) :
  keys_in_bounds s -> keys_in_bounds (snd (move_piece from_pos to_pos s)).
Proof.
  intros Hk. unfold move_piece.
  destruct (get_piece (board s) from_pos) as [piece|]; [|exact Hk].
  destruct (is_valid_move s piece to_pos); [|exact Hk].
  cbn [snd]. intros k r. cbn [set_position board].
  apply (keys_in_bounds_set_piece from_pos None).
  apply (keys_in_bounds_set_piece to_pos (Some piece)). exact Hk.
Qed.

Lemma Inv_move_piece (s : State) (from_pos to_pos : Position) :
  Inv s -> Inv (snd (move_piece from_pos to_pos s)).
Proof.
  intros HI. pose proof HI as (Hk & Ha & Hc).
  split; [apply keys_in_bounds_move_piece, Hk|].
  destruct (fst (move_piece from_pos to_pos s)) eqn:Hmove.
  - destruct (move_piece_true s from_pos to_pos Hmove) as (piece & Hget & Hv & ->).
    destruct (is_valid_move_true s piece to_pos Hv) as [Hto Hne].
    assert (Hfrom : is_within_bounds (board s) from_pos = true)
      by exact (Hk from_pos piece Hget).
    assert (Hpos : position (objs s piece) = from_pos) by exact (Hc from_pos piece Hget).
    split; intros k r;
      change (_pieces ?b !! k) with (get_piece b k);
      rewrite (get_piece_moved s from_pos to_pos) by assumption;
      (destruct (decide (from_pos = k)) as [|Hfk]; [discriminate|]);
      destruct (decide (to_pos = k)) as [<-|Htk].
    + intros [= <-]. cbn. rewrite !set_piece_next_ref. exact (Ha from_pos piece Hget).
    + intros Hkr. cbn. rewrite !set_piece_next_ref. exact (Ha k r Hkr).
    + intros [= <-]. rewrite objs_moved, Nat.eqb_refl. reflexivity.
    + intros Hkr. rewrite objs_moved.
      destruct (Nat.eqb_spec r piece) as [->|]; [|exact (Hc k r Hkr)].
      exfalso. apply Hfk. rewrite <- Hpos. exact (Hc k piece Hkr).
  - unfold move_piece in *.
    destruct (get_piece (board s) from_pos) as [piece|]; [|split; assumption].
    destruct (is_valid_move s piece to_pos); [discriminate | split; assumption].
Qed.

(** *** Preservation by the initial layout *)

Section Layout.
(** A property kept by "create a piece for [pos], then set it at [pos]". *)
Variable P : State -> Prop.
Hypothesis P_place :
  forall (kd : PieceKind) (clr : string) (pos : Position) (s : State),
    P s -> P (set_piece pos (Some (next_ref s)) (alloc (mkPiece kd clr pos) s)).

Lemma place_P (piece_type : string) (kd : PieceKind) (clr : string)
      (pos : Position) (s : State) :
  piece_classes piece_type = Some kd -> P s ->
  exists s', place piece_type clr pos s = Ok s' /\ P s'.
Proof.
  intros Hcls Hs. unfold place, create_piece. rewrite Hcls. cbn [bind].
  eexists. split; [reflexivity|]. apply P_place, Hs.
Qed.

Lemma for_each_P {A} (l : list A) (body : A -> State -> Res State) :
  (forall a s, P s -> exists s', body a s = Ok s' /\ P s') ->
  forall s, P s -> exists s', for_each l body s = Ok s' /\ P s'.
Proof.
  intros Hbody. induction l as [|a l IH]; intros s Hs; cbn [for_each].
  - exists s. split; [reflexivity | exact Hs].
  - destruct (Hbody a s Hs) as (s1 & -> & H1). cbn [bind]. apply IH, H1.
Qed.

Ltac placing :=
  intros; eapply place_P; [reflexivity | eassumption].

(** One loop of [_place_pieces], its body handled by [tac]. *)
Ltac loop tac :=
  match goal with
  | H : P ?s |- exists s', bind (for_each ?l ?body ?s) _ = Ok s' /\ _ =>
      let s1 := fresh "s" in
      let E := fresh "E" in
      let HP := fresh "HP" in
      edestruct (for_each_P l body) as (s1 & E & HP);
      [ tac | exact H | rewrite E; cbn [bind]; clear E H ]
  end.

(** [_place_pieces] never raises and keeps [P]. *)
Lemma _place_pieces_P (clr : string) (start_x : Z) (s : State) :
  P s -> exists s', _place_pieces clr start_x s = Ok s' /\ P s'.
Proof.
  intros Hs. unfold _place_pieces. cbn zeta.
  loop ltac:(intros; apply for_each_P; [placing | assumption]).
  do 4 (loop placing).
  apply for_each_P; [placing | assumption].
Qed.

(** [initialize_board] never raises and keeps [P]. *)
Lemma initialize_board_P (s : State) :
  P s -> exists s', initialize_board s = Ok s' /\ P s'.
Proof.
  intros Hs. unfold initialize_board.
  destruct (_place_pieces_P "W" 0 s Hs) as (s1 & -> & H1). cbn [bind].
  apply _place_pieces_P, H1.
Qed.
End Layout.

Lemma keys_in_bounds_place (kd : PieceKind) (clr : string) (pos : Position) (s : State) :
  keys_in_bounds s ->
  keys_in_bounds (set_piece pos (Some (next_ref s)) (alloc (mkPiece kd clr pos) s)).
Proof. intros H. apply keys_in_bounds_set_piece. exact H. Qed.

Lemma Inv_place (kd : PieceKind) (clr : string) (pos : Position) (s : State) :
  Inv s -> Inv (set_piece pos (Some (next_ref s)) (alloc (mkPiece kd clr pos) s)).
Proof.
  intros H. apply Inv_set_piece_Some.
  - apply Inv_alloc, H.
  - cbn. lia.
  - cbn. unfold store. rewrite Nat.eqb_refl. reflexivity.
Qed.

Lemma keeps_objects_place (s0 : State) (kd : PieceKind) (clr : string)
      (pos : Position) (s : State) :
  keeps_objects s0 s ->
  keeps_objects s0 (set_piece pos (Some (next_ref s)) (alloc (mkPiece kd clr pos) s)).
Proof.
  intros [Hle Hobjs]. split.
  - rewrite set_piece_next_ref. cbn. lia.
  - intros r Hr. rewrite set_piece_objs. cbn. unfold store.
    destruct (Nat.eqb_spec r (next_ref s)); [lia | apply Hobjs, Hr].
Qed.

(** [initialize_board] returns, and writes no object that existed. *)
Lemma initialize_board_keeps_objects (s : State) :
  exists s', initialize_board s = Ok s' /\ keeps_objects s s'.
Proof.
  apply (initialize_board_P (keeps_objects s) (keeps_objects_place s)).
  split; [lia | reflexivity].
Qed.

(** *** Preservation along a sequence *)

Lemma Inv_step (op : Op) (s : State) :
  Inv s -> passes_synced op s = true -> Inv (step op s).
Proof.
  intros HI Hok. destruct op as [|piece_type clr pos|pos [r|]|from_pos to_pos];
    cbn [step].
  - destruct (initialize_board_P Inv Inv_place s HI) as (s' & -> & H'). exact H'.
  - unfold create_piece. destruct (piece_classes piece_type); cbn [bind result].
    + apply Inv_alloc, HI.
    + exact HI.
  - cbn [passes_synced] in Hok. apply andb_true_iff in Hok as [Hr Hp].
    apply Nat.ltb_lt in Hr. unfold Position_eqb in Hp.
    apply bool_decide_eq_true in Hp. apply Inv_set_piece_Some; assumption.
  - apply Inv_set_piece_None, HI.
  - apply Inv_move_piece, HI.
Qed.

Lemma Inv_run (ops : list Op) (s : State) :
  Inv s -> along passes_synced ops s = true -> Inv (run ops s).
Proof.
  revert s. induction ops as [|op ops IH]; intros s HI Hok; cbn [run].
  - exact HI.
  - cbn [along] in Hok. apply andb_true_iff in Hok as [Hop Hops].
    apply IH; [apply Inv_step; assumption | exact Hops].
Qed.

Lemma Inv_no_piece (nx ny nz : Z) (h : State) :
  Inv (with_board (mkBoard nx ny nz ∅ ∅) h).
Proof. repeat split; intros k r Hkr; cbn in Hkr; rewrite lookup_empty in Hkr; discriminate. Qed.

Lemma Board_init_Inv (nx ny nz : Z) (h s0 : State) :
  Board_init nx ny nz h = Ok s0 -> Inv s0.
Proof.
  unfold Board_init. destruct (_ || _); [discriminate|].
  destruct (initialize_board_P Inv Inv_place _ (Inv_no_piece nx ny nz h))
    as (s' & -> & H').
  intros [= <-]. exact H'.
Qed.


Lemma keys_in_bounds_step (op : Op) (s : State) :
  keys_in_bounds s -> keys_in_bounds (step op s).
Proof.
  intros Hk. destruct op as [|piece_type clr pos|pos piece|from_pos to_pos];
    cbn [step].
  - destruct (initialize_board_P keys_in_bounds keys_in_bounds_place s Hk)
      as (s' & -> & H'). exact H'.
  - unfold create_piece. destruct (piece_classes piece_type); exact Hk.
  - apply keys_in_bounds_set_piece, Hk.
  - apply keys_in_bounds_move_piece, Hk.
Qed.

(** Whatever the client does, the occupied keys stay inside the cuboid. *)
Lemma keys_in_bounds_run (ops : list Op) (s : State) :
  keys_in_bounds s -> keys_in_bounds (run ops s).
Proof.
  revert s. induction ops as [|op ops IH]; intros s Hk; cbn [run].
  - exact Hk.
  - apply IH, keys_in_bounds_step, Hk.
Qed.

Lemma keys_in_bounds_reachable (nx ny nz : Z) (h s0 : State) (ops : list Op) :
  Board_init nx ny nz h = Ok s0 -> keys_in_bounds (run ops s0).
Proof.
  intros H0. apply keys_in_bounds_run. apply (Board_init_Inv nx ny nz h s0 H0).
Qed.

(** ** The position cache *)

(** A pawn is created for (0,0,0), as in [test_set_piece_out_of_bounds],
    and set at the empty in-bounds cell (3,1,1) of a fresh default board: it
    is stored under (3,1,1) with cached position (0,0,0). *)
Lemma set_piece_breaks_cache :
  let ops := [Create "P" "W" (0, 0, 0); SetPiece (3, 1, 1) (Some 64%nat)] in
  along passes_object ops fresh = true
  /\ is_within_bounds (board fresh) (3, 1, 1) = true
  /\ ~ cache_synced (run ops fresh).
Proof.
  split; [closed|]. split; [closed|].
  intros H. specialize (H (3, 1, 1) 64%nat ltac:(closed)).
  vm_compute in H. discriminate H.
Qed.

(** C4, amended. Starting from a freshly constructed board, after every
    sequence of [initialize_board], [move_piece] and [set_piece] calls in
    which each piece handed to [set_piece] has the target cell as its cached
    position, every piece stored in the occupancy map has its cached
    position equal to its key. *)
Theorem cache_synced_run (nx ny nz : Z) (h s0 : State) (ops : list Op) :
  Board_init nx ny nz h = Ok s0 ->
  along passes_synced ops s0 = true ->
  cache_synced (run ops s0).
Proof.
  intros H0 Hops.
  apply (Inv_run ops s0 (Board_init_Inv nx ny nz h s0 H0) Hops).
Qed.

(** A pawn step, a queen created for (4,1,1) and set there, a cell cleared
    and the initial layout placed again, on the default board. *)
Lemma cache_synced_run_witness :
  cache_synced
    (run [MovePiece (1, 1, 1) (2, 1, 1); Create "Q" "B" (4, 1, 1);
          SetPiece (4, 1, 1) (Some 64%nat); SetPiece (0, 0, 0) None;
          Initialize] fresh).
Proof.
  apply (cache_synced_run 8 4 4 boot fresh); closed.
Defined.

(** * Further properties of the code *)

(** ** [set_piece] and [get_piece] *)

(** X1. Reading any cell [k] after [set_piece p piece]: when [p] is inside
    the bounds and [k] is [p], the answer is [piece] (the piece placed, or
    [None] after a removal); in every other case, and in particular when
    [p] is out of bounds, it is what it was before. *)
Theorem set_piece_get (s : State) (p k : Position) (piece : option ref) :
  get_piece (board (set_piece p piece s)) k =
  if is_within_bounds (board s) p && bool_decide (p = k) then piece
  else get_piece (board s) k.
Proof.
  destruct (is_within_bounds (board s) p) eqn:Hp; cbn [andb].
  - destruct piece as [r|].
    + rewrite get_set_piece_Some by exact Hp.
      destruct (decide (p = k)) as [E|E].
      * rewrite bool_decide_eq_true_2 by exact E. reflexivity.
      * rewrite bool_decide_eq_false_2 by exact E. reflexivity.
    + rewrite get_set_piece_None by exact Hp.
      destruct (decide (p = k)) as [E|E].
      * rewrite bool_decide_eq_true_2 by exact E. reflexivity.
      * rewrite bool_decide_eq_false_2 by exact E. reflexivity.
  - rewrite set_piece_out_of_bounds by exact Hp. reflexivity.
Qed.

(** ** The grid mirrors the dictionary *)

Lemma mirror_set_piece (p : Position) (piece : option ref) (s : State) :
  mirror s -> mirror (set_piece p piece s).
Proof.
  unfold mirror, set_piece. intros H.
  destruct (is_within_bounds (board s) p); [|exact H].
  destruct piece; cbn; rewrite H; reflexivity.
Qed.

Lemma mirror_move_piece (from_pos to_pos : Position) (s : State) :
  mirror s -> mirror (snd (move_piece from_pos to_pos s)).
Proof.
  intros H. unfold move_piece.
  destruct (get_piece (board s) from_pos) as [piece|]; [|exact H].
  destruct (is_valid_move s piece to_pos); [|exact H].
  cbn [snd]. unfold mirror. cbn [set_position board].
  apply (mirror_set_piece from_pos None), (mirror_set_piece to_pos (Some piece)), H.
Qed.

Lemma mirror_place (kd : PieceKind) (clr : string) (pos : Position) (s : State) :
  mirror s -> mirror (set_piece pos (Some (next_ref s)) (alloc (mkPiece kd clr pos) s)).
Proof. intros H. apply mirror_set_piece. exact H. Qed.

Lemma mirror_step (op : Op) (s : State) : mirror s -> mirror (step op s).
Proof.
  intros H. destruct op as [|piece_type clr pos|pos piece|from_pos to_pos];
    cbn [step].
  - destruct (initialize_board_P mirror mirror_place s H) as (s' & -> & H').
    exact H'.
  - unfold create_piece. destruct (piece_classes piece_type); exact H.
  - apply mirror_set_piece, H.
  - apply mirror_move_piece, H.
Qed.

Lemma mirror_no_piece (nx ny nz : Z) (h : State) :
  mirror (with_board (mkBoard nx ny nz ∅ ∅) h).
Proof. reflexivity. Qed.

(** X2. On a board returned by the constructor, and after any sequence of
    operations on it, the numpy grid [_board] and the dictionary [_pieces]
    hold the same piece at every cell. *)
Theorem grid_mirrors_dictionary (nx ny nz : Z) (h s0 : State) (ops : list Op) :
  Board_init nx ny nz h = Ok s0 ->
  _board (board (run ops s0)) = _pieces (board (run ops s0)).
Proof.
  intros H0.
  assert (Hm : mirror s0).
  { revert H0. unfold Board_init. destruct (_ || _); [discriminate|].
    destruct (initialize_board_P mirror mirror_place _ (mirror_no_piece nx ny nz h))
      as (s' & -> & H').
    intros [= <-]. exact H'. }
  clear H0. revert s0 Hm. induction ops as [|op ops IH]; intros s0 Hm; cbn [run].
  - exact Hm.
  - apply IH, mirror_step, Hm.
Qed.

(** A capture, a removal and a second layout on the default board. *)
Lemma grid_mirrors_dictionary_witness :
  let ops := [MovePiece (1, 1, 1) (2, 1, 1); SetPiece (0, 0, 0) None;
              Create "N" "W" (3, 3, 3); SetPiece (3, 3, 3) (Some 64%nat);
              Initialize] in
  _board (board (run ops fresh)) = _pieces (board (run ops fresh)).
Proof.
  intros ops. apply (grid_mirrors_dictionary 8 4 4 boot fresh ops). closed.
Defined.

(** ** The cells [is_clear_path] visits *)

(** The loop accepts iff each of the [n] cells it visits is inside the
    bounds and empty. *)
Lemma walk_cells (b : Board) (n : nat) (x y z sx sy sz : Z) :
  walk b n (x, y, z) (sx, sy, sz) = true
  <-> forall j, 0 <= j < Z.of_nat n ->
        is_within_bounds b (x + j * sx, y + j * sy, z + j * sz) = true
        /\ get_piece b (x + j * sx, y + j * sy, z + j * sz) = None.
Proof.
  revert x y z. induction n as [|n IH]; intros x y z.
  - cbn [walk]. split; [intros _ j Hj; lia | reflexivity].
  - cbn [walk]. split.
    + destruct (is_within_bounds b (x, y, z)) eqn:Hb; [|discriminate].
      destruct (get_piece b (x, y, z)) as [r|] eqn:Hg; [discriminate|].
      cbn [negb truthy]. intros Hw j Hj.
      destruct (Z.eq_dec j 0) as [->|Hj0].
      * rewrite !Z.mul_0_l, !Z.add_0_r. split; assumption.
      * pose proof (proj1 (IH _ _ _) Hw (j - 1) ltac:(lia)) as Hc.
        replace (x + sx + (j - 1) * sx) with (x + j * sx) in Hc by lia.
        replace (y + sy + (j - 1) * sy) with (y + j * sy) in Hc by lia.
        replace (z + sz + (j - 1) * sz) with (z + j * sz) in Hc by lia.
        exact Hc.
    + intros H. pose proof (H 0 ltac:(lia)) as [Hb Hg].
      rewrite !Z.mul_0_l, !Z.add_0_r in Hb, Hg. rewrite Hb, Hg.
      cbn [negb truthy]. apply IH. intros j Hj.
      pose proof (H (j + 1) ltac:(lia)) as Hc.
      replace (x + (j + 1) * sx) with (x + sx + j * sx) in Hc by lia.
      replace (y + (j + 1) * sy) with (y + sy + j * sy) in Hc by lia.
      replace (z + (j + 1) * sz) with (z + sz + j * sz) in Hc by lia.
      exact Hc.
Qed.

(** On an axis that does not move, or moves by the full number of steps,
    the step computed with floor division is the sign of the delta. *)
Lemma step_is_sign (d steps : Z) :
  0 < steps -> d = 0 \/ Z.abs d = steps ->
  (if negb (d =? 0) then d / steps else 0) = Z.sgn d.
Proof.
  intros Hs Hd. destruct (Z.eqb_spec d 0) as [->|Hne]; [reflexivity|].
  cbn [negb]. destruct Hd as [Hd|Hd]; [contradiction|].
  destruct (Z.lt_trichotomy d 0) as [Hneg|[Hz|Hpos]]; [|contradiction|].
  - replace d with (-1 * steps) by lia. rewrite Z.div_mul by lia.
    rewrite Z.sgn_neg by lia. reflexivity.
  - replace d with steps by lia. rewrite Z.div_same by lia.
    rewrite Z.sgn_pos by lia. reflexivity.
Qed.

(** Boolean shape tests against the conditions in words. *)
Ltac to_prop :=
  rewrite ?orb_true_iff, ?andb_true_iff, ?negb_true_iff, ?Z.eqb_eq, ?Z.eqb_neq.

(** The shape tests only compare absolute deltas with each other and with
    zero, so the absolute values can be treated as unknowns. *)
Ltac abs_unknown dx dy dz :=
  pose proof (Z.abs_0_iff dx); pose proof (Z.abs_0_iff dy);
  pose proof (Z.abs_0_iff dz);
  generalize dependent (Z.abs dx); generalize dependent (Z.abs dy);
  generalize dependent (Z.abs dz); intros.

Lemma diagonal_condition (dx dy dz : Z) :
  diagonal dx dy dz = true <-> bishop_condition (dx, dy, dz).
Proof.
  unfold diagonal, bishop_condition. to_prop. abs_unknown dx dy dz.
  intuition (subst; try lia).
Qed.

Lemma line_or_diagonal_shape (dx dy dz : Z) :
  rook_condition (dx, dy, dz) \/ bishop_condition (dx, dy, dz) ->
  line_or_diagonal dx dy dz = true.
Proof.
  unfold line_or_diagonal, rook_condition, bishop_condition. to_prop.
  abs_unknown dx dy dz. intuition (subst; try lia).
Qed.

(** For a rook-shaped or bishop-shaped move the result of [is_clear_path] is
    the result of the loop over the cells strictly between the ends. *)
Lemma is_clear_path_shape (b : Board) (o t : Position) :
  rook_condition (delta o t) \/ bishop_condition (delta o t) ->
  (is_clear_path b o t = true
   <-> forall i, 1 <= i < distance o t ->
         is_within_bounds b (interior o t i) = true
         /\ get_piece b (interior o t i) = None).
Proof.
  destruct o as [[fx fy] fz], t as [[tx ty] tz].
  unfold distance, interior. cbn [delta]. intros Hshape.
  unfold is_clear_path.
  set (dx := tx - fx) in *. set (dy := ty - fy) in *. set (dz := tz - fz) in *.
  set (steps := Z.max (Z.max (Z.abs dx) (Z.abs dy)) (Z.abs dz)).
  assert (Hpos : 0 < steps)
    by (unfold rook_condition, bishop_condition in Hshape; lia).
  assert (Hx : dx = 0 \/ Z.abs dx = steps)
    by (unfold rook_condition, bishop_condition in Hshape; lia).
  assert (Hy : dy = 0 \/ Z.abs dy = steps)
    by (unfold rook_condition, bishop_condition in Hshape; lia).
  assert (Hz : dz = 0 \/ Z.abs dz = steps)
    by (unfold rook_condition, bishop_condition in Hshape; lia).
  destruct (Z.eqb_spec steps 0) as [E|_]; [lia|].
  rewrite (step_is_sign dx steps Hpos Hx), (step_is_sign dy steps Hpos Hy),
    (step_is_sign dz steps Hpos Hz).
  rewrite (line_or_diagonal_shape dx dy dz Hshape). cbn [negb].
  rewrite walk_cells. rewrite Z2Nat.id by lia. split.
  - intros H i Hi. pose proof (H (i - 1) ltac:(lia)) as Hc.
    replace (fx + Z.sgn dx + (i - 1) * Z.sgn dx) with (fx + i * Z.sgn dx) in Hc by lia.
    replace (fy + Z.sgn dy + (i - 1) * Z.sgn dy) with (fy + i * Z.sgn dy) in Hc by lia.
    replace (fz + Z.sgn dz + (i - 1) * Z.sgn dz) with (fz + i * Z.sgn dz) in Hc by lia.
    exact Hc.
  - intros H j Hj. pose proof (H (j + 1) ltac:(lia)) as Hc.
    replace (fx + (j + 1) * Z.sgn dx) with (fx + Z.sgn dx + j * Z.sgn dx) in Hc by lia.
    replace (fy + (j + 1) * Z.sgn dy) with (fy + Z.sgn dy + j * Z.sgn dy) in Hc by lia.
    replace (fz + (j + 1) * Z.sgn dz) with (fz + Z.sgn dz + j * Z.sgn dz) in Hc by lia.
    exact Hc.
Qed.

(** When both ends are inside the bounds, every cell strictly between them
    on a rook-shaped or bishop-shaped line is inside the bounds too. *)
Lemma interior_within_bounds (b : Board) (o t : Position) (i : Z) :
  rook_condition (delta o t) \/ bishop_condition (delta o t) ->
  is_within_bounds b o = true ->
  is_within_bounds b t = true ->
  1 <= i < distance o t ->
  is_within_bounds b (interior o t i) = true.
Proof.
  destruct o as [[fx fy] fz], t as [[tx ty] tz].
  unfold distance, interior, is_within_bounds. cbn [delta].
  unfold rook_condition, bishop_condition.
  rewrite !andb_true_iff, !Z.leb_le, !Z.ltb_lt.
  intros Hshape Ho Ht Hi.
  assert (Hx : 0 <= fx + i * Z.sgn (tx - fx) < _nx b) by nia.
  assert (Hy : 0 <= fy + i * Z.sgn (ty - fy) < _ny b) by nia.
  assert (Hz : 0 <= fz + i * Z.sgn (tz - fz) < _nz b) by nia.
  lia.
Qed.

(** ** The movement predicates, class by class *)

Lemma guarded_true (a b c : bool) :
  (if a then if b then c else false else false) = true
  <-> a = true /\ b = true /\ c = true.
Proof. destruct a, b, c; intuition congruence. Qed.

Lemma enemy_true (s : State) (c : string) (target : option ref) :
  enemy s c target = true
  <-> exists q, target = Some q /\ color (objs s q) <> c.
Proof.
  unfold enemy. destruct target as [q|].
  - rewrite negb_true_iff, String.eqb_neq. split.
    + intros H. exists q. split; [reflexivity | exact H].
    + intros (q' & [= <-] & H). exact H.
  - split; [discriminate | intros (q & H & _); discriminate].
Qed.

Lemma rook_shape_condition (fx fy fz tx ty tz : Z) :
  ((fx =? tx) && (fy =? ty) && negb (fz =? tz))
  || ((fx =? tx) && negb (fy =? ty) && (fz =? tz))
  || (negb (fx =? tx) && (fy =? ty) && (fz =? tz)) = true
  <-> rook_condition (tx - fx, ty - fy, tz - fz).
Proof. unfold rook_condition. to_prop. lia. Qed.

(** X5. For a rook at [o] and an in-bounds destination [t <> o]: the move
    is accepted iff exactly one coordinate changes, [is_clear_path] accepts
    the line, and [t] is empty or holds a piece of another colour. *)
Theorem Rook_move_spec (s : State) (self : ref) (t : Position) :
  kind (objs s self) = Rook ->
  is_within_bounds (board s) t = true ->
  t <> position (objs s self) ->
  (is_valid_move s self t = true
   <-> rook_condition (delta (position (objs s self)) t)
       /\ is_clear_path (board s) (position (objs s self)) t = true
       /\ lands s self t).
Proof.
  intros Hk Hb Hne. rewrite is_valid_move_dispatch by assumption.
  unfold _is_valid_move. rewrite Hk. unfold Rook_is_valid_move.
  rewrite <- empty_or_enemy_lands.
  destruct (position (objs s self)) as [[fx fy] fz].
  destruct t as [[tx ty] tz]. cbn [delta].
  rewrite guarded_true, rook_shape_condition. reflexivity.
Qed.

(** The rook of [test_rook_blocked_path]: a pawn at (0,0,1) is in the way
    from (0,0,0) to (0,0,3). *)
Lemma Rook_move_spec_witness :
  let s := put "P" "B" (0, 0, 1) (put "R" "W" (0, 0, 0) empty_board) in
  is_valid_move s 0%nat (0, 0, 3) = false.
Proof.
  intros s.
  assert (Hk : kind (objs s 0%nat) = Rook) by closed.
  assert (Hb : is_within_bounds (board s) (0, 0, 3) = true) by closed.
  assert (Hne : (0, 0, 3) <> position (objs s 0%nat)) by closed.
  destruct (is_valid_move s 0%nat (0, 0, 3)) eqn:E; [|reflexivity].
  apply (Rook_move_spec s 0%nat (0, 0, 3) Hk Hb Hne) in E.
  destruct E as (_ & Hpath & _). vm_compute in Hpath. discriminate Hpath.
Defined.

(** X6. For a bishop at [o] and an in-bounds destination [t <> o]: the move
    is accepted iff two coordinates change by the same non-zero amount and
    the third does not, or all three change by the same non-zero amount,
    [is_clear_path] accepts the line, and [t] is empty or holds a piece of
    another colour. *)
Theorem Bishop_move_spec (s : State) (self : ref) (t : Position) :
  kind (objs s self) = Bishop ->
  is_within_bounds (board s) t = true ->
  t <> position (objs s self) ->
  (is_valid_move s self t = true
   <-> bishop_condition (delta (position (objs s self)) t)
       /\ is_clear_path (board s) (position (objs s self)) t = true
       /\ lands s self t).
Proof.
  intros Hk Hb Hne. rewrite is_valid_move_dispatch by assumption.
  unfold _is_valid_move. rewrite Hk. unfold Bishop_is_valid_move.
  rewrite <- empty_or_enemy_lands.
  destruct (position (objs s self)) as [[fx fy] fz].
  destruct t as [[tx ty] tz]. cbn [delta].
  rewrite guarded_true, diagonal_condition. reflexivity.
Qed.

(** The bishop of [test_bishop_capture] takes the pawn at (3,3,3). *)
Lemma Bishop_move_spec_witness :
  let s := put "P" "B" (3, 3, 3) (put "B" "W" (0, 0, 0) empty_board) in
  is_valid_move s 0%nat (3, 3, 3) = true.
Proof.
  intros s.
  assert (Hk : kind (objs s 0%nat) = Bishop) by closed.
  assert (Hb : is_within_bounds (board s) (3, 3, 3) = true) by closed.
  assert (Hne : (3, 3, 3) <> position (objs s 0%nat)) by closed.
  apply (Bishop_move_spec s 0%nat (3, 3, 3) Hk Hb Hne).
  split; [right; right; right; cbn; lia|]. split; closed.
Defined.

(** X7. For a king at [o] and an in-bounds destination [t <> o]: the move is
    accepted iff the largest absolute delta is 1 and [t] is empty or holds a
    piece of another colour. *)
Theorem King_move_spec (s : State) (self : ref) (t : Position) :
  kind (objs s self) = King ->
  is_within_bounds (board s) t = true ->
  t <> position (objs s self) ->
  (is_valid_move s self t = true
   <-> distance (position (objs s self)) t = 1 /\ lands s self t).
Proof.
  intros Hk Hb Hne. rewrite is_valid_move_dispatch by assumption.
  unfold _is_valid_move. rewrite Hk. unfold King_is_valid_move, distance.
  rewrite <- empty_or_enemy_lands.
  destruct (position (objs s self)) as [[fx fy] fz].
  destruct t as [[tx ty] tz]. cbn [delta].
  destruct (Z.eqb_spec
              (Z.max (Z.max (Z.abs (tx - fx)) (Z.abs (ty - fy))) (Z.abs (tz - fz))) 1)
    as [E|E].
  - tauto.
  - split; [discriminate | tauto].
Qed.

(** The king of [test_king_invalid_moves] does not go two cells away. *)
Lemma King_move_spec_witness :
  let s := put "K" "W" (1, 1, 1) empty_board in
  is_valid_move s 0%nat (3, 1, 1) = false.
Proof.
  intros s.
  assert (Hk : kind (objs s 0%nat) = King) by closed.
  assert (Hb : is_within_bounds (board s) (3, 1, 1) = true) by closed.
  assert (Hne : (3, 1, 1) <> position (objs s 0%nat)) by closed.
  destruct (is_valid_move s 0%nat (3, 1, 1)) eqn:E; [|reflexivity].
  apply (King_move_spec s 0%nat (3, 1, 1) Hk Hb Hne) in E.
  destruct E as [Hd _]. vm_compute in Hd. discriminate Hd.
Defined.

(** X8. For a pawn at [o] and an in-bounds destination [t <> o]: the move
    is accepted iff the x-delta is the forward direction of the pawn's
    colour (+1 for ['W'], -1 for any other colour), the z-delta is 0, and
    either the y-delta is 0 and [t] is empty, or the y-delta is 1 or -1 and
    [t] holds a piece of another colour. *)
Theorem Pawn_move_spec (s : State) (self : ref) (t : Position) :
  kind (objs s self) = Pawn ->
  is_within_bounds (board s) t = true ->
  t <> position (objs s self) ->
  (is_valid_move s self t = true
   <-> let '(dx, dy, dz) := delta (position (objs s self)) t in
       dx = forward (color (objs s self)) /\ dz = 0
       /\ ((dy = 0 /\ get_piece (board s) t = None)
           \/ (Z.abs dy = 1
               /\ exists q, get_piece (board s) t = Some q
                            /\ color (objs s q) <> color (objs s self)))).
Proof.
  intros Hk Hb Hne. rewrite is_valid_move_dispatch by assumption.
  unfold _is_valid_move. rewrite Hk. unfold Pawn_is_valid_move, forward.
  destruct (position (objs s self)) as [[fx fy] fz].
  destruct t as [[tx ty] tz]. cbn [delta].
  set (dir := if String.eqb (color (objs s self)) "W" then 1 else -1).
  set (target := get_piece (board s) (tx, ty, tz)).
  pose proof (enemy_true s (color (objs s self)) target) as Henemy.
  destruct (Z.eqb_spec (tx - fx) dir) as [Ex|Ex];
    destruct (Z.eqb_spec (tz - fz) 0) as [Ez|Ez];
    destruct (Z.eqb_spec (ty - fy) 0) as [Ey|Ey];
    destruct (Z.eqb_spec (Z.abs (ty - fy)) 1) as [Ea|Ea];
    cbn [andb]; try (split; [discriminate | intros (? & ? & ?); lia]);
    try lia.
  - (* straight ahead *)
    destruct target as [q|]; cbn [truthy negb].
    + split; [discriminate|]. intros (_ & _ & [[_ H]|[H _]]); [discriminate | lia].
    + split; [|reflexivity]. intros _. split; [exact Ex|]. split; [exact Ez|].
      left. split; [exact Ey | reflexivity].
  - (* one step to the side in y *)
    rewrite Henemy. split.
    + intros H. split; [exact Ex|]. split; [exact Ez|]. right. split; [exact Ea | exact H].
    + intros (_ & _ & [[H _]|[_ H]]); [lia | exact H].
Qed.

(** The blocked pawn of [test_pawn_capture_forward_invalid]: it may not take
    the pawn straight ahead. *)
Lemma Pawn_move_spec_witness :
  let s := put "P" "B" (2, 1, 1) (put "P" "W" (1, 1, 1) empty_board) in
  is_valid_move s 0%nat (2, 1, 1) = false.
Proof.
  intros s.
  assert (Hk : kind (objs s 0%nat) = Pawn) by closed.
  assert (Hb : is_within_bounds (board s) (2, 1, 1) = true) by closed.
  assert (Hne : (2, 1, 1) <> position (objs s 0%nat)) by closed.
  destruct (is_valid_move s 0%nat (2, 1, 1)) eqn:E; [|reflexivity].
  apply (Pawn_move_spec s 0%nat (2, 1, 1) Hk Hb Hne) in E.
  vm_compute in E. destruct E as (_ & _ & [[_ H]|[H _]]); discriminate H.
Defined.

(** ** What every class of piece respects *)

(** X9. Whatever the class of the piece, an accepted destination is inside
    the bounds, is not the piece's cached position, and is empty or holds a
    piece of another colour: no piece is ever allowed to take a piece of
    its own colour. *)
Theorem is_valid_move_sound (s : State) (self : ref) (t : Position) :
  is_valid_move s self t = true ->
  is_within_bounds (board s) t = true
  /\ t <> position (objs s self)
  /\ lands s self t.
Proof.
  intros Hv. destruct (is_valid_move_true s self t Hv) as [Hb Hne].
  split; [exact Hb|]. split; [exact Hne|].
  rewrite is_valid_move_dispatch in Hv by assumption.
  apply empty_or_enemy_lands. revert Hv. unfold _is_valid_move.
  set (c := color (objs s self)).
  destruct (kind (objs s self));
    unfold Pawn_is_valid_move, Rook_is_valid_move, Knight_is_valid_move,
      Bishop_is_valid_move, Queen_is_valid_move, King_is_valid_move;
    fold c;
    destruct (position (objs s self)) as [[fx fy] fz];
    destruct t as [[tx ty] tz].
  - destruct (get_piece (board s) (tx, ty, tz)) as [q|]; [|reflexivity].
    cbn [truthy negb]. rewrite andb_false_r.
    destruct (_ && _); [|discriminate]. cbn. tauto.
  - rewrite guarded_true. tauto.
  - destruct (_ =? 5); [tauto | discriminate].
  - rewrite guarded_true. tauto.
  - rewrite guarded_true. tauto.
  - destruct (_ =? 1); [tauto | discriminate].
Qed.

(** A rook at (0,0,0) may take the black pawn at (0,3,0). *)
Lemma is_valid_move_sound_witness :
  let s := put "P" "B" (0, 3, 0) (put "R" "W" (0, 0, 0) empty_board) in
  lands s 0%nat (0, 3, 0).
Proof.
  intros s. apply (is_valid_move_sound s 0%nat (0, 3, 0)). closed.
Defined.

(** ** The queen against the other sliding pieces and the king *)

Lemma queen_shape (fx fy fz tx ty tz : Z) :
  ((fx =? tx) || (fy =? ty) || (fz =? tz))
  || diagonal (tx - fx) (ty - fy) (tz - fz) = true
  <-> (fx = tx \/ fy = ty \/ fz = tz)
      \/ bishop_condition (tx - fx, ty - fy, tz - fz).
Proof.
  rewrite orb_true_iff, diagonal_condition. to_prop. tauto.
Qed.

(** One step away in every direction there is nothing to walk over. *)
Lemma is_clear_path_adjacent (b : Board) (o t : Position) :
  distance o t = 1 -> is_clear_path b o t = true.
Proof.
  destruct o as [[fx fy] fz], t as [[tx ty] tz].
  unfold distance, is_clear_path. cbn [delta]. intros H. rewrite H. cbn [Z.eqb].
  assert (Hshape : line_or_diagonal (tx - fx) (ty - fy) (tz - fz) = true);
    [|rewrite Hshape; reflexivity].
  unfold line_or_diagonal.
  destruct (Z.eqb_spec (tx - fx) 0); [reflexivity|].
  destruct (Z.eqb_spec (ty - fy) 0); [reflexivity|].
  destruct (Z.eqb_spec (tz - fz) 0); [reflexivity|].
  assert (Z.abs (tx - fx) = 1 /\ Z.abs (ty - fy) = 1 /\ Z.abs (tz - fz) = 1)
    as (-> & -> & ->) by lia.
  reflexivity.
Qed.

(** X10. From the same cell and with the same colour, the queen's predicate
    accepts every destination that the rook's, the bishop's or the king's
    predicate accepts. *)
Theorem Queen_covers (s : State) (self : Piece) (t : Position) :
  Rook_is_valid_move s self t = true
  \/ Bishop_is_valid_move s self t = true
  \/ King_is_valid_move s self t = true ->
  Queen_is_valid_move s self t = true.
Proof.
  unfold Rook_is_valid_move, Bishop_is_valid_move, King_is_valid_move,
    Queen_is_valid_move.
  pose proof (is_clear_path_adjacent (board s) (position self) t) as Hadj.
  unfold distance in Hadj.
  destruct (position self) as [[fx fy] fz]. destruct t as [[tx ty] tz].
  cbn [delta] in Hadj.
  rewrite !guarded_true, rook_shape_condition, diagonal_condition, queen_shape.
  intros [(Hshape & Hpath & Hland) | [(Hshape & Hpath & Hland) | Hking]].
  - split; [|split; assumption]. left. unfold rook_condition in Hshape. lia.
  - split; [|split; assumption]. right. exact Hshape.
  - destruct (Z.eqb_spec
                (Z.max (Z.max (Z.abs (tx - fx)) (Z.abs (ty - fy))) (Z.abs (tz - fz))) 1)
      as [E|E]; [|discriminate].
    split; [|split; [apply Hadj, E | exact Hking]].
    unfold bishop_condition.
    destruct (Z.eq_dec fx tx); [tauto|].
    destruct (Z.eq_dec fy ty); [tauto|].
    destruct (Z.eq_dec fz tz); [tauto|].
    right. right. right. right. lia.
Qed.

(** The rook's move of [test_queen_valid_moves], from (0,0,0) to (5,0,0). *)
Lemma Queen_covers_witness :
  Queen_is_valid_move empty_board (mkPiece Queen "W" (0, 0, 0)) (5, 0, 0) = true.
Proof.
  apply (Queen_covers empty_board (mkPiece Queen "W" (0, 0, 0)) (5, 0, 0)).
  left. closed.
Defined.

(** X11. No destination is accepted by both the rook's and the bishop's
    predicate: a rook move changes one coordinate, a bishop move at least
    two. *)
Theorem Rook_Bishop_disjoint (s : State) (self : Piece) (t : Position) :
  Rook_is_valid_move s self t = true ->
  Bishop_is_valid_move s self t = false.
Proof.
  unfold Rook_is_valid_move, Bishop_is_valid_move.
  destruct (position self) as [[fx fy] fz]. destruct t as [[tx ty] tz].
  rewrite guarded_true, rook_shape_condition. intros (Hrook & _ & _).
  destruct (diagonal (tx - fx) (ty - fy) (tz - fz)) eqn:Hdiag; [|reflexivity].
  apply diagonal_condition in Hdiag.
  unfold rook_condition, bishop_condition in *. exfalso. lia.
Qed.

Lemma Rook_Bishop_disjoint_witness :
  Bishop_is_valid_move empty_board (mkPiece Rook "W" (0, 0, 0)) (0, 3, 0) = false.
Proof.
  apply (Rook_Bishop_disjoint empty_board (mkPiece Rook "W" (0, 0, 0)) (0, 3, 0)).
  closed.
Defined.

(** ** What a successful move changes *)

Lemma pieces_moved (s : State) (from_pos to_pos : Position) (piece : ref) :
  is_within_bounds (board s) from_pos = true ->
  is_within_bounds (board s) to_pos = true ->
  _pieces (board (set_position piece to_pos
                    (set_piece from_pos None (set_piece to_pos (Some piece) s)))) =
  delete from_pos (<[to_pos := piece]> (_pieces (board s))).
Proof.
  intros Hf Ht. cbn [set_position board]. unfold set_piece at 1.
  rewrite set_piece_bounds, Hf. unfold set_piece. rewrite Ht. reflexivity.
Qed.

(** X12. A successful move changes the occupancy at [from_pos] and [to_pos]
    only, keeps the class and the colour of every piece, writes no object
    but the moved piece, creates no object and keeps the dimensions. *)
Theorem move_piece_frame (s : State) (from_pos to_pos : Position) :
  keys_in_bounds s ->
  fst (move_piece from_pos to_pos s) = true ->
  let s' := snd (move_piece from_pos to_pos s) in
  (forall k, k <> from_pos -> k <> to_pos ->
             get_piece (board s') k = get_piece (board s) k)
  /\ (forall r, kind (objs s' r) = kind (objs s r)
                /\ color (objs s' r) = color (objs s r))
  /\ (forall r, get_piece (board s) from_pos <> Some r -> objs s' r = objs s r)
  /\ next_ref s' = next_ref s
  /\ dims (board s') = dims (board s).
Proof.
  intros Hkeys Hmove s'.
  destruct (move_piece_true s from_pos to_pos Hmove) as (piece & Hget & Hv & Es).
  subst s'. rewrite Es.
  destruct (is_valid_move_true s piece to_pos Hv) as [Hto _].
  assert (Hfrom : is_within_bounds (board s) from_pos = true)
    by exact (Hkeys from_pos piece Hget).
  split; [|split; [|split; [|split]]].
  - intros k Hkf Hkt. rewrite get_piece_moved by assumption.
    rewrite decide_False by congruence. rewrite decide_False by congruence.
    reflexivity.
  - intros r. rewrite objs_moved.
    destruct (Nat.eqb_spec r piece) as [->|]; split; reflexivity.
  - intros r Hr. rewrite objs_moved.
    destruct (Nat.eqb_spec r piece) as [->|]; [congruence | reflexivity].
  - cbn. rewrite !set_piece_next_ref. reflexivity.
  - cbn [set_position board]. unfold set_piece.
    repeat (destruct (is_within_bounds _ _); cbn); reflexivity.
Qed.

(** The rook of [test_move_piece] goes from (0,0,0) to (0,3,0) next to a
    pawn that stays where it is. *)
Lemma move_piece_frame_witness :
  let s := put "P" "B" (2, 2, 2) (put "R" "W" (0, 0, 0) empty_board) in
  get_piece (board (snd (move_piece (0, 0, 0) (0, 3, 0) s))) (2, 2, 2)
  = get_piece (board s) (2, 2, 2).
Proof.
  intros s.
  assert (Hk : keys_in_bounds s) by (apply (bool_decide_unpack _); vm_compute; exact I).
  assert (Hm : fst (move_piece (0, 0, 0) (0, 3, 0) s) = true) by closed.
  destruct (move_piece_frame s (0, 0, 0) (0, 3, 0) Hk Hm) as [Hother _].
  apply Hother; closed.
Defined.

(** X13. A successful move onto an empty cell keeps the number of pieces on
    the board; a successful capture lowers it by exactly one. *)
Theorem move_piece_size (s : State) (from_pos to_pos : Position) :
  keys_in_bounds s ->
  fst (move_piece from_pos to_pos s) = true ->
  let n := size (_pieces (board s)) in
  let n' := size (_pieces (board (snd (move_piece from_pos to_pos s)))) in
  match get_piece (board s) to_pos with
  | None => n' = n
  | Some _ => S n' = n
  end.
Proof.
  intros Hkeys Hmove.
  destruct (move_piece_true s from_pos to_pos Hmove) as (piece & Hget & Hv & Es).
  rewrite Es. clear Es.
  destruct (is_valid_move_true s piece to_pos Hv) as [Hto _].
  assert (Hfrom : is_within_bounds (board s) from_pos = true)
    by exact (Hkeys from_pos piece Hget).
  assert (Hne : from_pos <> to_pos).
  { intros ->. rewrite (is_valid_move_onto_self s piece to_pos Hget) in Hv.
    discriminate. }
  cbv zeta. rewrite pieces_moved by assumption.
  unfold get_piece in *.
  rewrite map_size_delete, lookup_insert_ne by congruence.
  rewrite Hget, map_size_insert.
  pose proof (map_size_ne_0_lookup_2 _ from_pos (mk_is_Some _ _ Hget)) as Hpos.
  destruct (_pieces (board s) !! to_pos); cbn; lia.
Qed.

(** The capture of [test_pawn_capture] leaves one piece out of two. *)
Lemma move_piece_size_witness :
  let s := put "P" "B" (2, 2, 1) (put "P" "W" (1, 1, 1) empty_board) in
  S (size (_pieces (board (snd (move_piece (1, 1, 1) (2, 2, 1) s)))))
  = size (_pieces (board s)).
Proof.
  intros s.
  assert (Hk : keys_in_bounds s) by (apply (bool_decide_unpack _); vm_compute; exact I).
  assert (Hm : fst (move_piece (1, 1, 1) (2, 2, 1) s) = true) by closed.
  pose proof (move_piece_size s (1, 1, 1) (2, 2, 1) Hk Hm) as H.
  assert (Hg : get_piece (board s) (2, 2, 1) = Some 1%nat) by closed.
  rewrite Hg in H. exact H.
Defined.

(** ** Kings and the end of the game *)

(** The game is not over for a colour exactly when a king of that colour is
    stored somewhere. *)
Lemma is_game_over_false (c : string) (s : State) :
  is_game_over c s = false
  <-> exists k r, get_piece (board s) k = Some r
                  /\ color (objs s r) = c /\ kind (objs s r) = King.
Proof.
  unfold is_game_over, get_piece.
  set (kings := List.filter _ (List.filter _ _)).
  assert (Hin : forall r, In r kings <->
            (exists k, _pieces (board s) !! k = Some r)
            /\ color (objs s r) = c /\ kind (objs s r) = King).
  { intros r. unfold kings.
    rewrite !filter_In, In_values, String.eqb_eq, is_King_true. tauto. }
  destruct kings as [|r l].
  - split; [discriminate|]. intros (k & r & Hk & Hc & Hkd).
    assert (Hr : In r []) by (apply Hin; split; [exists k; exact Hk | tauto]).
    destruct Hr.
  - split; [|reflexivity]. intros _.
    destruct (proj1 (Hin r) (or_introl eq_refl)) as ((k & Hk) & Hc & Hkd).
    exists k, r. tauto.
Qed.

(** X14. The game can only become over for a colour through the capture of
    a king of that colour: if [is_game_over c] is [False] before a call of
    [move_piece] and [True] after it, the call returned [True] and the
    piece that stood on [to_pos] was a king of colour [c]. *)
Theorem game_over_by_king_capture (s : State) (c : string)
        (from_pos to_pos : Position) :
  keys_in_bounds s ->
  is_game_over c s = false ->
  is_game_over c (snd (move_piece from_pos to_pos s)) = true ->
  fst (move_piece from_pos to_pos s) = true
  /\ exists prev, get_piece (board s) to_pos = Some prev
                  /\ kind (objs s prev) = King /\ color (objs s prev) = c.
Proof.
  intros Hkeys Hbefore Hafter.
  destruct (fst (move_piece from_pos to_pos s)) eqn:Hmove.
  - split; [reflexivity|].
    destruct (move_piece_true s from_pos to_pos Hmove) as (piece & Hget & Hv & Es).
    rewrite Es in Hafter. clear Es.
    destruct (is_valid_move_true s piece to_pos Hv) as [Hto _].
    assert (Hfrom : is_within_bounds (board s) from_pos = true)
      by exact (Hkeys from_pos piece Hget).
    apply is_game_over_false in Hbefore as (k & r & Hk & Hc & Hkd).
    destruct (decide (k = to_pos)) as [->|Hkt]; [exists r; tauto|].
    exfalso. apply not_false_iff_true in Hafter. apply Hafter.
    apply is_game_over_false.
    assert (Hobj : forall r', kind (objs s r') = King -> color (objs s r') = c ->
              color (objs (set_position piece to_pos
                             (set_piece from_pos None
                                (set_piece to_pos (Some piece) s))) r') = c
              /\ kind (objs (set_position piece to_pos
                               (set_piece from_pos None
                                  (set_piece to_pos (Some piece) s))) r') = King).
    { intros r' Hkd' Hc'. rewrite objs_moved.
      destruct (Nat.eqb_spec r' piece) as [->|]; cbn; tauto. }
    destruct (decide (k = from_pos)) as [->|Hkf].
    + exists to_pos, piece. rewrite get_piece_moved by assumption.
      assert (Hne : from_pos <> to_pos) by congruence.
      rewrite decide_False by exact Hne. rewrite decide_True by reflexivity.
      split; [reflexivity|]. apply Hobj; congruence.
    + exists k, r. rewrite get_piece_moved by assumption.
      rewrite decide_False by congruence. rewrite decide_False by congruence.
      split; [exact Hk|]. apply Hobj; assumption.
  - unfold move_piece in *.
    destruct (get_piece (board s) from_pos) as [piece|]; [|cbn in *; congruence].
    destruct (is_valid_move s piece to_pos); [discriminate | cbn in *; congruence].
Qed.

(** A white rook takes the only black king. *)
Lemma game_over_by_king_capture_witness :
  let s := put "K" "B" (0, 0, 3) (put "R" "W" (0, 0, 0) empty_board) in
  exists prev, get_piece (board s) (0, 0, 3) = Some prev
               /\ kind (objs s prev) = King /\ color (objs s prev) = "B"%string.
Proof.
  intros s.
  apply (game_over_by_king_capture s "B" (0, 0, 0) (0, 0, 3)).
  - apply (bool_decide_unpack _). vm_compute. exact I.
  - closed.
  - closed.
Defined.

(** X15. After a king of colour [c] has been set on a cell inside the
    bounds, the game is not over for [c]. *)
Theorem is_game_over_set_king (s : State) (p : Position) (r : ref) (c : string) :
  is_within_bounds (board s) p = true ->
  kind (objs s r) = King ->
  color (objs s r) = c ->
  is_game_over c (set_piece p (Some r) s) = false.
Proof.
  intros Hb Hk Hc. apply is_game_over_false. exists p, r.
  rewrite get_set_piece_Some by exact Hb. rewrite decide_True by reflexivity.
  rewrite set_piece_objs. tauto.
Qed.

(** The black king of [test_is_game_over] set at (7,3,3). *)
Lemma is_game_over_set_king_witness :
  let s := result empty_board
             (call (_, s1) <~ create_piece "K" "B" (7, 3, 3) empty_board in Ok s1) in
  is_game_over "B" (set_piece (7, 3, 3) (Some 0%nat) s) = false.
Proof.
  intros s. apply (is_game_over_set_king s (7, 3, 3) 0%nat "B"); closed.
Defined.

(** ** The factory *)

Lemma piece_classes_known (piece_type : string) :
  piece_classes piece_type = None <-> ~ In piece_type known_tags.
Proof.
  unfold piece_classes, known_tags. cbn [In].
  repeat match goal with
         | |- context [String.eqb ?a ?b] => destruct (String.eqb_spec a b)
         end;
    (split;
     [ try discriminate; intros _; intuition congruence
     | intros H; try reflexivity; exfalso; apply H; subst; intuition auto ]).
Qed.

(** X16. [create_piece] raises [ValueError] exactly for a tag that is not
    one of the six letters, and then nothing has been created.  For a known
    tag it returns a new object, different from every existing one, with
    the class of the tag, the given colour and the given position; no
    existing object and no cell of the board is touched. *)
Theorem create_piece_spec (piece_type clr : string) (pos : Position) (s : State) :
  match create_piece piece_type clr pos s with
  | Ok (r, s') =>
      In piece_type known_tags
      /\ r = next_ref s /\ next_ref s' = S r
      /\ piece_classes piece_type = Some (kind (objs s' r))
      /\ color (objs s' r) = clr /\ position (objs s' r) = pos
      /\ board s' = board s
      /\ forall r', r' <> r -> objs s' r' = objs s r'
  | Raise e =>
      ~ In piece_type known_tags
      /\ e = ValueError ("Unknown piece type: " ++ piece_type)
  end.
Proof.
  unfold create_piece.
  destruct (piece_classes piece_type) as [kd|] eqn:Hcls.
  - cbn. unfold store. rewrite Nat.eqb_refl. cbn.
    repeat split.
    + destruct (in_dec string_dec piece_type known_tags) as [Hin|Hout];
        [exact Hin|].
      apply piece_classes_known in Hout. congruence.
    + intros r' Hr'. destruct (Nat.eqb_spec r' (next_ref s)); [contradiction|].
      reflexivity.
  - split; [apply piece_classes_known, Hcls | reflexivity].
Qed.

(** ** The constructor and the initial layout *)

Lemma dims_place (d : Z * Z * Z) (kd : PieceKind) (clr : string)
      (pos : Position) (s : State) :
  dims (board s) = d ->
  dims (board (set_piece pos (Some (next_ref s)) (alloc (mkPiece kd clr pos) s))) = d.
Proof.
  intros H. unfold set_piece. destruct (is_within_bounds _ _); exact H.
Qed.


(** Counting the objects a loop creates. *)
Lemma for_each_count {A} (l : list A) (body : A -> State -> Res State) (n : nat) :
  (forall a s, exists s', body a s = Ok s'
                          /\ next_ref s' = (n + next_ref s)%nat
                          /\ dims (board s') = dims (board s)) ->
  forall s, exists s', for_each l body s = Ok s'
                       /\ next_ref s' = (length l * n + next_ref s)%nat
                       /\ dims (board s') = dims (board s).
Proof.
  intros Hbody. induction l as [|a l IH]; intros s; cbn [for_each].
  - exists s. repeat split.
  - destruct (Hbody a s) as (s1 & -> & Hn1 & Hd1). cbn [bind].
    destruct (IH s1) as (s2 & -> & Hn2 & Hd2).
    exists s2. split; [reflexivity|]. split; [cbn [length]; lia | congruence].
Qed.

Lemma place_count (piece_type : string) (kd : PieceKind) (clr : string)
      (pos : Position) (s : State) :
  piece_classes piece_type = Some kd ->
  exists s', place piece_type clr pos s = Ok s'
             /\ next_ref s' = (1 + next_ref s)%nat
             /\ dims (board s') = dims (board s).
Proof.
  intros Hcls. unfold place, create_piece. rewrite Hcls. cbn [bind].
  eexists. split; [reflexivity|]. split.
  - rewrite set_piece_next_ref. reflexivity.
  - apply dims_place. reflexivity.
Qed.

Lemma length_range (n : Z) : length (range n) = Z.to_nat n.
Proof. unfold range. rewrite length_fmap, length_seq. reflexivity. Qed.

Ltac counting :=
  intros; eapply place_count; reflexivity.

Ltac count_loop tac :=
  match goal with
  | |- exists s', bind (for_each ?l ?body ?s) _ = Ok s' /\ _ =>
      let s1 := fresh "s" in
      let E := fresh "E" in
      let Hn := fresh "Hn" in
      let Hd := fresh "Hd" in
      edestruct (for_each_count l body) as (s1 & E & Hn & Hd);
      [ tac | rewrite E; cbn [bind]; clear E ]
  end.

Lemma _place_pieces_count (clr : string) (start_x : Z) (s : State) :
  exists s', _place_pieces clr start_x s = Ok s'
             /\ next_ref s' =
                (Z.to_nat (_ny (board s)) * Z.to_nat (_nz (board s)) + 16
                 + next_ref s)%nat
             /\ dims (board s') = dims (board s).
Proof.
  unfold _place_pieces. cbn zeta.
  count_loop ltac:(intros; apply for_each_count; counting).
  do 4 (count_loop counting).
  match goal with
  | |- exists s', for_each ?l ?body ?st = Ok s' /\ _ =>
      destruct (for_each_count l body 1 ltac:(counting) st) as (s5 & E & Hn5 & Hd5)
  end.
  exists s5. split; [exact E|]. split.
  - rewrite !length_range in *. cbn [length] in *. lia.
  - congruence.
Qed.

(** X18. [initialize_board] never raises.  It creates
    [2 * (ny * nz + 16)] pieces, one call of the factory for each pawn cell
    and sixteen for the other pieces of each colour, keeps the dimensions
    and writes no object that existed before. *)
Theorem initialize_board_creates (s : State) :
  exists s', initialize_board s = Ok s'
             /\ next_ref s' =
                (2 * (Z.to_nat (_ny (board s)) * Z.to_nat (_nz (board s)) + 16)
                 + next_ref s)%nat
             /\ dims (board s') = dims (board s)
             /\ keeps_objects s s'.
Proof.
  destruct (initialize_board_keeps_objects s) as (s' & E & Hobjs).
  exists s'. split; [exact E|]. revert E. unfold initialize_board.
  destruct (_place_pieces_count "W" 0 s) as (s1 & -> & Hn1 & Hd1). cbn [bind].
  destruct (_place_pieces_count "B" (_nx (board s1) - 1) s1) as (s2 & -> & Hn2 & Hd2).
  intros [= <-].
  assert (Hy : _ny (board s1) = _ny (board s)) by (unfold dims in Hd1; congruence).
  assert (Hz : _nz (board s1) = _nz (board s)) by (unfold dims in Hd1; congruence).
  rewrite Hy, Hz in Hn2.
  split; [lia|]. split; [congruence | exact Hobjs].
Qed.

(** ** States reached from a constructed board *)

Lemma dims_set_piece (p : Position) (piece : option ref) (s : State) :
  dims (board (set_piece p piece s)) = dims (board s).
Proof.
  unfold set_piece. destruct (is_within_bounds _ _); [|reflexivity].
  destruct piece; reflexivity.
Qed.

Lemma dims_step (op : Op) (s : State) : dims (board (step op s)) = dims (board s).
Proof.
  destruct op as [|piece_type clr pos|pos piece|from_pos to_pos]; cbn [step].
  - destruct (initialize_board_P (fun s' => dims (board s') = dims (board s))
                (dims_place (dims (board s))) s eq_refl) as (s' & -> & H').
    exact H'.
  - unfold create_piece. destruct (piece_classes piece_type); reflexivity.
  - apply dims_set_piece.
  - unfold move_piece. destruct (get_piece (board s) from_pos); [|reflexivity].
    destruct (is_valid_move s r to_pos); [|reflexivity].
    cbn [snd set_position board]. rewrite !dims_set_piece. reflexivity.
Qed.

Lemma dims_run (ops : list Op) (s : State) :
  dims (board (run ops s)) = dims (board s).
Proof.
  revert s. induction ops as [|op ops IH]; intros s; cbn [run].
  - reflexivity.
  - rewrite IH. apply dims_step.
Qed.

(** X19. On a board constructed with dimensions [nx], [ny], [nz], whatever
    operations follow, including [set_piece] with out-of-bounds positions
    or with pieces cached elsewhere, the dimensions stay what they were and
    every occupied position [(x, y, z)] has [0 <= x < nx], [0 <= y < ny]
    and [0 <= z < nz]. *)
Theorem occupied_within_dims (nx ny nz : Z) (h s0 : State) (ops : list Op)
        (x y z : Z) (r : ref) :
  Board_init nx ny nz h = Ok s0 ->
  get_piece (board (run ops s0)) (x, y, z) = Some r ->
  dims (board (run ops s0)) = (nx, ny, nz)
  /\ 0 <= x < nx /\ 0 <= y < ny /\ 0 <= z < nz.
Proof.
  intros H0 Hget.
  pose proof (Board_init_Inv nx ny nz h s0 H0) as (Hk & _ & _).
  pose proof (keys_in_bounds_run ops s0 Hk (x, y, z) r Hget) as Hb.
  assert (Hd : dims (board (run ops s0)) = (nx, ny, nz)).
  { rewrite dims_run. revert H0. unfold Board_init.
    destruct (_ || _); [discriminate|].
    destruct (initialize_board_P (fun s => dims (board s) = (nx, ny, nz))
                (dims_place (nx, ny, nz)) _ (eq_refl : dims (board
                   (with_board (mkBoard nx ny nz ∅ ∅) h)) = (nx, ny, nz)))
      as (s1 & E1 & Hd).
    intros H0. congruence. }
  split; [exact Hd|].
  unfold dims in Hd. injection Hd as Hx Hy Hz.
  unfold is_within_bounds in Hb. rewrite Hx, Hy, Hz in Hb. lia.
Qed.

(** A raw [set_piece] of a piece cached elsewhere, one out of bounds, a move
    and a removal on the default board; the rook's corner (0,3,3) is still
    occupied. *)
Lemma occupied_within_dims_witness :
  let ops := [Create "P" "W" (0, 0, 0); SetPiece (3, 1, 1) (Some 64%nat);
              SetPiece (9, 9, 9) (Some 64%nat); MovePiece (1, 0, 0) (2, 0, 0);
              SetPiece (0, 0, 0) None] in
  dims (board (run ops fresh)) = (8, 4, 4)
  /\ 0 <= 0 < 8 /\ 0 <= 3 < 4 /\ 0 <= 3 < 4.
Proof.
  intros ops.
  apply (occupied_within_dims 8 4 4 boot fresh ops 0 3 3 19%nat); closed.
Defined.

(** X20. Starting from a constructed board, as long as every piece handed
    to [set_piece] has the target cell as its cached position, no [Piece]
    object is stored under two keys. *)
Theorem unshared_run (nx ny nz : Z) (h s0 : State) (ops : list Op) :
  Board_init nx ny nz h = Ok s0 ->
  along passes_synced ops s0 = true ->
  unshared (run ops s0).
Proof.
  intros H0 Hops k1 k2 r H1 H2.
  destruct (Inv_run ops s0 (Board_init_Inv nx ny nz h s0 H0) Hops) as (_ & _ & Hc).
  rewrite <- (Hc k1 r H1). exact (Hc k2 r H2).
Qed.

Lemma unshared_run_witness :
  unshared
    (run [MovePiece (1, 1, 1) (2, 1, 1); Create "Q" "B" (4, 1, 1);
          SetPiece (4, 1, 1) (Some 64%nat)] fresh).
Proof.
  apply (unshared_run 8 4 4 boot fresh); closed.
Defined.

(** X21. No move brings a king back: when the game is over for a colour it
    is still over after any call of [move_piece]. *)
Theorem game_over_stays (s : State) (c : string) (from_pos to_pos : Position) :
  keys_in_bounds s ->
  is_game_over c s = true ->
  is_game_over c (snd (move_piece from_pos to_pos s)) = true.
Proof.
  intros Hkeys Hover.
  destruct (is_game_over c (snd (move_piece from_pos to_pos s))) eqn:Hafter;
    [reflexivity|].
  exfalso. apply not_false_iff_true in Hover. apply Hover.
  apply is_game_over_false.
  apply is_game_over_false in Hafter as (k & r & Hk & Hc & Hkd).
  destruct (fst (move_piece from_pos to_pos s)) eqn:Hmove.
  - destruct (move_piece_true s from_pos to_pos Hmove) as (piece & Hget & Hv & Es).
    rewrite Es in Hk, Hc, Hkd. clear Es.
    destruct (is_valid_move_true s piece to_pos Hv) as [Hto _].
    assert (Hfrom : is_within_bounds (board s) from_pos = true)
      by exact (Hkeys from_pos piece Hget).
    rewrite get_piece_moved in Hk by assumption.
    rewrite objs_moved in Hc, Hkd.
    assert (Hobj : color (objs s r) = c /\ kind (objs s r) = King).
    { destruct (Nat.eqb_spec r piece) as [->|]; cbn in Hc, Hkd; tauto. }
    destruct (decide (from_pos = k)); [discriminate|].
    destruct (decide (to_pos = k)).
    + injection Hk as <-. exists from_pos, piece. tauto.
    + exists k, r. tauto.
  - exists k, r. revert Hk Hc Hkd. unfold move_piece in *.
    destruct (get_piece (board s) from_pos) as [piece|]; [|cbn; tauto].
    destruct (is_valid_move s piece to_pos); [discriminate | cbn; tauto].
Qed.

(** With the black king gone, a white rook's move leaves the game over for
    black. *)
Lemma game_over_stays_witness :
  let s := put "R" "W" (0, 0, 0) empty_board in
  is_game_over "B" (snd (move_piece (0, 0, 0) (0, 0, 3) s)) = true.
Proof.
  intros s. apply (game_over_stays s "B" (0, 0, 0) (0, 0, 3)).
  - apply (bool_decide_unpack _). vm_compute. exact I.
  - closed.
Defined.

(** ** Where the initial layout puts the pieces *)

Lemma within_dims (b b' : Board) (p : Position) :
  dims b = dims b' -> is_within_bounds b p = is_within_bounds b' p.
Proof.
  unfold dims, is_within_bounds. destruct p as [[x y] z].
  intros [= -> -> ->]. reflexivity.
Qed.

Lemma place_Ok (piece_type clr : string) (pos : Position) (s s' : State) :
  place piece_type clr pos s = Ok s' ->
  exists kd, piece_classes piece_type = Some kd
             /\ s' = set_piece pos (Some (next_ref s)) (alloc (mkPiece kd clr pos) s).
Proof.
  unfold place, create_piece. destruct (piece_classes piece_type) as [kd|];
    [|discriminate].
  cbn [bind]. intros [= <-]. exists kd. split; reflexivity.
Qed.

Lemma holds_place_other (o : Piece) (p q : Position) (kd : PieceKind)
      (clr : string) (s : State) :
  holds s q kd clr -> q <> p ->
  holds (set_piece p (Some (next_ref s)) (alloc o s)) q kd clr.
Proof.
  intros (r & Hget & Hr & Hobj) Hne. exists r. split; [|split].
  - destruct (is_within_bounds (board (alloc o s)) p) eqn:Hb.
    + rewrite get_set_piece_Some by exact Hb.
      rewrite decide_False by congruence. exact Hget.
    + rewrite set_piece_out_of_bounds by exact Hb. exact Hget.
  - rewrite set_piece_next_ref. cbn. lia.
  - rewrite set_piece_objs. cbn. unfold store.
    destruct (Nat.eqb_spec r (next_ref s)); [lia | exact Hobj].
Qed.

Lemma holds_place_here (kd : PieceKind) (clr : string) (p : Position) (s : State) :
  is_within_bounds (board s) p = true ->
  holds (set_piece p (Some (next_ref s)) (alloc (mkPiece kd clr p) s)) p kd clr.
Proof.
  intros Hb. exists (next_ref s). split; [|split].
  - rewrite get_set_piece_Some by exact Hb. rewrite decide_True; reflexivity.
  - rewrite set_piece_next_ref. cbn. lia.
  - rewrite set_piece_objs. cbn. unfold store. rewrite Nat.eqb_refl. reflexivity.
Qed.

Section Cell.
(** One cell [q] inside a cuboid of dimensions [d], and the piece expected
    on it. *)
Variable d : Z * Z * Z.
Variable q : Position.
Variable kd : PieceKind.
Variable cq : string.
Hypothesis q_inside :
  forall s, dims (board s) = d -> is_within_bounds (board s) q = true.

(** A placement elsewhere, or of the expected piece, keeps the cell. *)
Lemma place_step (piece_type clr : string) (p : Position) (s s' : State) :
  dims (board s) = d ->
  place piece_type clr p s = Ok s' ->
  p <> q \/ (piece_classes piece_type = Some kd /\ clr = cq) ->
  dims (board s') = d /\ (holds s q kd cq -> holds s' q kd cq).
Proof.
  intros Hd Hplace Hp.
  destruct (place_Ok _ _ _ _ _ Hplace) as (kd' & Hcls & ->).
  split; [apply dims_place, Hd|]. intros Hq.
  destruct (decide (p = q)) as [->|Hne].
  - destruct Hp as [Hp|[Hp ->]]; [contradiction|].
    assert (kd' = kd) as -> by congruence.
    apply holds_place_here, q_inside, Hd.
  - apply holds_place_other; [exact Hq | congruence].
Qed.

Lemma place_sets (piece_type : string) (s s' : State) :
  dims (board s) = d ->
  place piece_type cq q s = Ok s' ->
  piece_classes piece_type = Some kd ->
  holds s' q kd cq.
Proof.
  intros Hd Hplace Hcls.
  destruct (place_Ok _ _ _ _ _ Hplace) as (kd' & Hcls' & ->).
  assert (kd' = kd) as -> by congruence.
  apply holds_place_here, q_inside, Hd.
Qed.

(** Loops whose bodies keep the cell, and loops that fill it. *)
Lemma for_each_keeps {A} (l : list A) (body : A -> State -> Res State) :
  (forall a s s', In a l -> dims (board s) = d -> body a s = Ok s' ->
     dims (board s') = d /\ (holds s q kd cq -> holds s' q kd cq)) ->
  forall s s', dims (board s) = d -> for_each l body s = Ok s' ->
    dims (board s') = d /\ (holds s q kd cq -> holds s' q kd cq).
Proof.
  induction l as [|a l IH]; intros Hbody s s' Hd; cbn [for_each].
  - intros [= <-]. split; [exact Hd | tauto].
  - destruct (body a s) as [s1|] eqn:E; [|discriminate]. cbn [bind].
    intros Hrest.
    destruct (Hbody a s s1 (or_introl eq_refl) Hd E) as [Hd1 Hq1].
    destruct (IH (fun a' s0 s0' Hin => Hbody a' s0 s0' (or_intror Hin))
                s1 s' Hd1 Hrest) as [Hd' Hq'].
    split; [exact Hd' | tauto].
Qed.

Lemma for_each_sets {A} (l : list A) (body : A -> State -> Res State) (a0 : A) :
  In a0 l ->
  (forall a s s', In a l -> dims (board s) = d -> body a s = Ok s' ->
     dims (board s') = d /\ (holds s q kd cq -> holds s' q kd cq)) ->
  (forall s s', dims (board s) = d -> body a0 s = Ok s' -> holds s' q kd cq) ->
  forall s s', dims (board s) = d -> for_each l body s = Ok s' ->
    holds s' q kd cq.
Proof.
  induction l as [|a l IH]; intros Hin Hbody Hset s s' Hd; [destruct Hin|].
  cbn [for_each]. destruct (body a s) as [s1|] eqn:E; [|discriminate].
  cbn [bind]. intros Hrest.
  destruct (Hbody a s s1 (or_introl eq_refl) Hd E) as [Hd1 Hq1].
  pose proof (fun a' s0 s0' Hin' => Hbody a' s0 s0' (or_intror Hin')) as Hbody'.
  destruct Hin as [->|Hin].
  - apply (for_each_keeps l body Hbody' s1 s' Hd1 Hrest).
    apply (Hset s s1 Hd E).
  - apply (IH Hin Hbody' Hset s1 s' Hd1 Hrest).
Qed.
End Cell.

Section Layout_cell.
Variable d : Z * Z * Z.
Variable q : Position.
Variable kd : PieceKind.
Variable cq : string.
Hypothesis q_inside :
  forall s, dims (board s) = d -> is_within_bounds (board s) q = true.

Lemma loop_keeps (piece_type clr : string) (l : list Position) (s s' : State) :
  dims (board s) = d ->
  for_each l (place piece_type clr) s = Ok s' ->
  (forall p, In p l -> p <> q \/ (piece_classes piece_type = Some kd /\ clr = cq)) ->
  dims (board s') = d /\ (holds s q kd cq -> holds s' q kd cq).
Proof.
  intros Hd Hloop Hl.
  refine (for_each_keeps d q kd cq l (place piece_type clr) _ s s' Hd Hloop).
  intros p s0 s0' Hin Hd0 Hp.
  apply (place_step d q kd cq q_inside piece_type clr p s0 s0' Hd0 Hp (Hl p Hin)).
Qed.

Lemma pawns_keeps (clr : string) (row : Z) (ys zs : list Z) (s s' : State) :
  dims (board s) = d ->
  for_each ys (fun y => for_each zs (fun z => place "P" clr (row, y, z))) s = Ok s' ->
  row <> fst (fst q) \/ (kd = Pawn /\ clr = cq) ->
  dims (board s') = d /\ (holds s q kd cq -> holds s' q kd cq).
Proof.
  intros Hd Hloop Hrow.
  refine (for_each_keeps d q kd cq ys _ _ s s' Hd Hloop).
  intros y s0 s0' _ Hd0 Hinner.
  refine (for_each_keeps d q kd cq zs _ _ s0 s0' Hd0 Hinner).
  intros z s1 s1' _ Hd1 Hp.
  apply (place_step d q kd cq q_inside "P" clr (row, y, z) s1 s1' Hd1 Hp).
  destruct Hrow as [Hrow|[-> ->]].
  - left. intros <-. apply Hrow. reflexivity.
  - right. split; reflexivity.
Qed.

Lemma pawns_sets (row y z : Z) (ys zs : list Z) (s s' : State) :
  q = (row, y, z) -> kd = Pawn -> In y ys -> In z zs ->
  dims (board s) = d ->
  for_each ys (fun y => for_each zs (fun z => place "P" cq (row, y, z))) s = Ok s' ->
  holds s' q kd cq.
Proof.
  intros Hq Hkd Hy Hz Hd Hloop.
  refine (for_each_sets d q kd cq ys _ y Hy _ _ s s' Hd Hloop).
  - intros y' s0 s0' _ Hd0 Hinner.
    apply (pawns_keeps cq row [y'] zs s0 s0' Hd0); [|right; split; [exact Hkd|reflexivity]].
    cbn [for_each]. rewrite Hinner. reflexivity.
  - intros s0 s0' Hd0 Hinner.
    refine (for_each_sets d q kd cq zs _ z Hz _ _ s0 s0' Hd0 Hinner).
    + intros z' s1 s1' _ Hd1 Hp.
      apply (place_step d q kd cq q_inside "P" cq (row, y, z') s1 s1' Hd1 Hp).
      right. split; [rewrite Hkd; reflexivity | reflexivity].
    + intros s1 s1' Hd1 Hp. rewrite <- Hq in Hp.
      apply (place_sets d q kd cq q_inside "P" s1 s1' Hd1 Hp).
      rewrite Hkd. reflexivity.
Qed.

(** Cells of the home layer [start_x]. *)
Ltac home_cells Hx :=
  let p := fresh "p" in
  let Hin := fresh "Hin" in
  intros p Hin; left; intros Heq; apply Hx; rewrite <- Heq;
  cbn [In] in Hin;
  repeat (destruct Hin as [<-|Hin]; [reflexivity|]); destruct Hin.

Ltac next_loop s1 E :=
  match goal with
  | |- bind ?m _ = Ok _ -> _ => destruct m as [s1|] eqn:E; [cbn [bind] | discriminate]
  end.

(** A cell of another layer than the two [_place_pieces] writes is kept. *)
Lemma _place_pieces_keeps (clr : string) (start_x : Z) (s s' : State) :
  dims (board s) = d ->
  _place_pieces clr start_x s = Ok s' ->
  start_x <> fst (fst q) ->
  start_x + forward clr <> fst (fst q) ->
  dims (board s') = d /\ (holds s q kd cq -> holds s' q kd cq).
Proof.
  intros Hd Hplace Hx Hrow. revert Hplace. unfold _place_pieces. cbn zeta.
  next_loop s1 E1. next_loop s2 E2. next_loop s3 E3. next_loop s4 E4.
  next_loop s5 E5. intros E6.
  destruct (pawns_keeps _ _ _ _ _ _ Hd E1 (or_introl Hrow)) as [Hd1 H1].
  destruct (loop_keeps _ _ _ _ _ Hd1 E2 ltac:(home_cells Hx)) as [Hd2 H2].
  destruct (loop_keeps _ _ _ _ _ Hd2 E3 ltac:(home_cells Hx)) as [Hd3 H3].
  destruct (loop_keeps _ _ _ _ _ Hd3 E4 ltac:(home_cells Hx)) as [Hd4 H4].
  destruct (loop_keeps _ _ _ _ _ Hd4 E5 ltac:(home_cells Hx)) as [Hd5 H5].
  destruct (loop_keeps _ _ _ _ _ Hd5 E6 ltac:(home_cells Hx)) as [Hd6 H6].
  split; [exact Hd6 | tauto].
Qed.
End Layout_cell.

Lemma inside_dims (nx ny nz x y z : Z) (s : State) :
  0 <= x < nx -> 0 <= y < ny -> 0 <= z < nz ->
  dims (board s) = (nx, ny, nz) ->
  is_within_bounds (board s) (x, y, z) = true.
Proof.
  unfold dims, is_within_bounds. intros Hx Hy Hz [= -> -> ->].
  rewrite !andb_true_iff, !Z.leb_le, !Z.ltb_lt. lia.
Qed.

Lemma In_range (n i : Z) : 0 <= i < n -> In i (range n).
Proof.
  intros Hi. unfold range. apply list_elem_of_In, list_elem_of_fmap.
  exists (Z.to_nat i). split; [lia|].
  apply list_elem_of_In, in_seq. lia.
Qed.

Lemma loop_sets (d : Z * Z * Z) (q : Position) (kd : PieceKind) (cq : string)
      (q_inside : forall s, dims (board s) = d ->
                            is_within_bounds (board s) q = true)
      (piece_type : string) (l : list Position) (s s' : State) :
  piece_classes piece_type = Some kd -> In q l ->
  dims (board s) = d ->
  for_each l (place piece_type cq) s = Ok s' ->
  holds s' q kd cq.
Proof.
  intros Hcls Hin Hd Hloop.
  refine (for_each_sets d q kd cq l _ q Hin _ _ s s' Hd Hloop).
  - intros p s0 s0' _ Hd0 Hp.
    apply (place_step d q kd cq q_inside piece_type cq p s0 s0' Hd0 Hp).
    right. split; [exact Hcls | reflexivity].
  - intros s0 s0' Hd0 Hp.
    apply (place_sets d q kd cq q_inside piece_type s0 s0' Hd0 Hp Hcls).
Qed.

Lemma forward_cases (clr : string) : forward clr = 1 \/ forward clr = -1.
Proof. unfold forward. destruct (String.eqb clr "W"); [left | right]; reflexivity. Qed.

Ltac next_loop s1 E :=
  match goal with
  | |- bind ?m _ = Ok _ -> _ => destruct m as [s1|] eqn:E; [cbn [bind] | discriminate]
  end.

Ltac home_cells Hx :=
  let p := fresh "p" in
  let Hin := fresh "Hin" in
  intros p Hin; left; intros Heq; apply Hx; rewrite <- Heq;
  cbn [In] in Hin;
  repeat (destruct Hin as [<-|Hin]; [reflexivity|]); destruct Hin.

(** [_place_pieces] leaves a pawn on every cell of the pawn layer. *)
Lemma _place_pieces_pawn (nx ny nz : Z) (clr : string) (start_x y z : Z)
      (s s' : State) :
  dims (board s) = (nx, ny, nz) ->
  0 <= start_x + forward clr < nx -> 0 <= y < ny -> 0 <= z < nz ->
  _place_pieces clr start_x s = Ok s' ->
  holds s' (start_x + forward clr, y, z) Pawn clr.
Proof.
  intros Hd Hrow Hy Hz.
  assert (Hny : _ny (board s) = ny) by (unfold dims in Hd; congruence).
  assert (Hnz : _nz (board s) = nz) by (unfold dims in Hd; congruence).
  set (d := (nx, ny, nz)) in *. set (q := (start_x + forward clr, y, z)).
  assert (Hq : forall s0, dims (board s0) = d -> is_within_bounds (board s0) q = true)
    by (intros s0; apply inside_dims; assumption).
  assert (Hx : start_x <> fst (fst q))
    by (cbn; destruct (forward_cases clr); lia).
  unfold _place_pieces. cbn zeta. rewrite Hny, Hnz.
  next_loop s1 E1. next_loop s2 E2. next_loop s3 E3. next_loop s4 E4.
  next_loop s5 E5. intros E6.
  pose proof (pawns_sets d q Pawn clr Hq _ y z _ _ s s1 eq_refl eq_refl
                (In_range ny y Hy) (In_range nz z Hz) Hd E1) as H1.
  destruct (pawns_keeps d q Pawn clr Hq _ _ _ _ _ _ Hd E1
              (or_intror (conj eq_refl eq_refl))) as [Hd1 _].
  destruct (loop_keeps d q Pawn clr Hq _ _ _ _ _ Hd1 E2 ltac:(home_cells Hx)) as [Hd2 H2].
  destruct (loop_keeps d q Pawn clr Hq _ _ _ _ _ Hd2 E3 ltac:(home_cells Hx)) as [Hd3 H3].
  destruct (loop_keeps d q Pawn clr Hq _ _ _ _ _ Hd3 E4 ltac:(home_cells Hx)) as [Hd4 H4].
  destruct (loop_keeps d q Pawn clr Hq _ _ _ _ _ Hd4 E5 ltac:(home_cells Hx)) as [Hd5 H5].
  destruct (loop_keeps d q Pawn clr Hq _ _ _ _ _ Hd5 E6 ltac:(home_cells Hx)) as [Hd6 H6].
  tauto.
Qed.

Lemma loop_dims (piece_type clr : string) (l : list Position) (s s' : State) :
  for_each l (place piece_type clr) s = Ok s' -> dims (board s') = dims (board s).
Proof.
  revert s. induction l as [|p l IH]; intros s; cbn [for_each].
  - intros [= <-]. reflexivity.
  - destruct (place piece_type clr p s) as [s1|] eqn:E; [|discriminate].
    cbn [bind]. intros Hrest. rewrite (IH s1 Hrest).
    destruct (place_Ok _ _ _ _ _ E) as (kd & _ & ->). apply dims_place. reflexivity.
Qed.

(** [_place_pieces] leaves a king on each of the two king cells. *)
Lemma _place_pieces_kings (nx ny nz : Z) (clr : string) (start_x : Z)
      (s s' : State) :
  dims (board s) = (nx, ny, nz) ->
  0 <= start_x < nx -> 1 <= ny -> 2 <= nz ->
  _place_pieces clr start_x s = Ok s' ->
  holds s' (start_x, ny / 2, nz / 2 - 1) King clr
  /\ holds s' (start_x, ny / 2, nz / 2) King clr.
Proof.
  intros Hd Hx Hy Hz Hplace.
  assert (Hny : _ny (board s) = ny) by (unfold dims in Hd; congruence).
  assert (Hnz : _nz (board s) = nz) by (unfold dims in Hd; congruence).
  destruct (_place_pieces_count clr start_x s) as (s'' & E & _ & Hd').
  assert (s'' = s') by congruence. subst s''. clear E.
  assert (Hcy : 0 <= ny / 2 < ny) by (Z.div_mod_to_equations; lia).
  assert (Hcz : 0 <= nz / 2 - 1 /\ nz / 2 < nz) by (Z.div_mod_to_equations; lia).
  revert Hplace. unfold _place_pieces. cbn zeta. rewrite Hny, Hnz.
  next_loop s1 E1. next_loop s2 E2. next_loop s3 E3. next_loop s4 E4.
  next_loop s5 E5. intros E6.
  assert (Hd5 : dims (board s5) = (nx, ny, nz)).
  { rewrite <- Hd, <- Hd'. symmetry. apply (loop_dims _ _ _ _ _ E6). }
  split.
  - refine (loop_sets (nx, ny, nz) _ King clr _ "K" _ s5 s' eq_refl _ Hd5 E6).
    + intros s0. apply inside_dims; lia.
    + left. reflexivity.
  - refine (loop_sets (nx, ny, nz) _ King clr _ "K" _ s5 s' eq_refl _ Hd5 E6).
    + intros s0. apply inside_dims; lia.
    + right. left. reflexivity.
Qed.

Lemma Board_init_layout (nx ny nz : Z) (h s0 : State) :
  Board_init nx ny nz h = Ok s0 ->
  exists s1,
    _place_pieces "W" 0 (with_board (mkBoard nx ny nz ∅ ∅) h) = Ok s1
    /\ dims (board s1) = (nx, ny, nz)
    /\ _place_pieces "B" (nx - 1) s1 = Ok s0.
Proof.
  unfold Board_init. destruct (_ || _); [discriminate|].
  unfold initialize_board.
  destruct (_place_pieces_count "W" 0 (with_board (mkBoard nx ny nz ∅ ∅) h))
    as (s1 & -> & _ & Hd1).
  cbn [bind]. intros H0. exists s1. split; [reflexivity|].
  assert (Hd : dims (board s1) = (nx, ny, nz)) by (rewrite Hd1; reflexivity).
  split; [exact Hd|].
  replace (nx - 1) with (_nx (board s1) - 1); [exact H0|].
  unfold dims in Hd. injection Hd as -> _ _. reflexivity.
Qed.

(** X22. On a board constructed with at least four layers along x, every
    cell of the layer [x = 1] holds a white pawn and every cell of the layer
    [x = nx - 2] holds a black pawn, each with its cell as cached
    position. *)
Theorem initial_pawns (nx ny nz : Z) (h s0 : State) (y z : Z) :
  Board_init nx ny nz h = Ok s0 ->
  4 <= nx -> 0 <= y < ny -> 0 <= z < nz ->
  holds s0 (1, y, z) Pawn "W" /\ holds s0 (nx - 2, y, z) Pawn "B".
Proof.
  intros H0 Hnx Hy Hz.
  destruct (Board_init_layout nx ny nz h s0 H0) as (s1 & E1 & Hd1 & E2).
  split.
  - assert (Hw : holds s1 (0 + forward "W", y, z) Pawn "W").
    { eapply (_place_pieces_pawn nx ny nz "W" 0 y z); [| | | |exact E1];
        [reflexivity | cbn; lia | exact Hy | exact Hz]. }
    refine (proj2 (_place_pieces_keeps (nx, ny, nz) (1, y, z) Pawn "W" _
                     "B" (nx - 1) s1 s0 Hd1 E2 _ _) Hw).
    + intros s. apply inside_dims; lia.
    + cbn. lia.
    + cbn. lia.
  - replace (nx - 2) with (nx - 1 + forward "B") by (cbn; lia).
    apply (_place_pieces_pawn nx ny nz "B" (nx - 1) y z s1 s0 Hd1
             ltac:(cbn; lia) Hy Hz E2).
Qed.

(** The pawns in front of the corners of the default board. *)
Lemma initial_pawns_witness :
  holds fresh (1, 0, 0) Pawn "W" /\ holds fresh (8 - 2, 0, 0) Pawn "B".
Proof.
  apply (initial_pawns 8 4 4 boot fresh 0 0); first [closed | lia].
Defined.

(** X23. On a board constructed with at least three layers along x, one row
    and two columns, each colour has its two kings on the cells
    [(start_x, ny // 2, nz // 2 - 1)] and [(start_x, ny // 2, nz // 2)] of its
    home layer, so the game is over for neither colour. *)
Theorem initial_kings (nx ny nz : Z) (h s0 : State) :
  Board_init nx ny nz h = Ok s0 ->
  3 <= nx -> 1 <= ny -> 2 <= nz ->
  (holds s0 (0, ny / 2, nz / 2 - 1) King "W"
   /\ holds s0 (0, ny / 2, nz / 2) King "W")
  /\ (holds s0 (nx - 1, ny / 2, nz / 2 - 1) King "B"
      /\ holds s0 (nx - 1, ny / 2, nz / 2) King "B")
  /\ is_game_over "W" s0 = false
  /\ is_game_over "B" s0 = false.
Proof.
  intros H0 Hnx Hny Hnz.
  destruct (Board_init_layout nx ny nz h s0 H0) as (s1 & E1 & Hd1 & E2).
  assert (Hcy : 0 <= ny / 2 < ny) by (Z.div_mod_to_equations; lia).
  assert (Hcz : 0 <= nz / 2 - 1 /\ nz / 2 < nz) by (Z.div_mod_to_equations; lia).
  assert (Hw : holds s1 (0, ny / 2, nz / 2 - 1) King "W"
               /\ holds s1 (0, ny / 2, nz / 2) King "W").
  { eapply (_place_pieces_kings nx ny nz "W" 0); [| | | |exact E1];
      [reflexivity | lia | exact Hny | exact Hnz]. }
  destruct Hw as [Hw1 Hw2].
  destruct (_place_pieces_kings nx ny nz "B" (nx - 1) s1 s0 Hd1 ltac:(lia) Hny Hnz E2)
    as [Hb1 Hb2].
  assert (Hw1' : holds s0 (0, ny / 2, nz / 2 - 1) King "W").
  { refine (proj2 (_place_pieces_keeps (nx, ny, nz) _ King "W" _
                     "B" (nx - 1) s1 s0 Hd1 E2 _ _) Hw1).
    - intros s. apply inside_dims; lia.
    - cbn. lia.
    - cbn. lia. }
  assert (Hw2' : holds s0 (0, ny / 2, nz / 2) King "W").
  { refine (proj2 (_place_pieces_keeps (nx, ny, nz) _ King "W" _
                     "B" (nx - 1) s1 s0 Hd1 E2 _ _) Hw2).
    - intros s. apply inside_dims; lia.
    - cbn. lia.
    - cbn. lia. }
  split; [split; assumption|]. split; [split; assumption|].
  split; apply is_game_over_false.
  - destruct Hw2' as (r & Hget & _ & Hobj). eexists _, r.
    split; [exact Hget|]. rewrite Hobj. split; reflexivity.
  - destruct Hb2 as (r & Hget & _ & Hobj). eexists _, r.
    split; [exact Hget|]. rewrite Hobj. split; reflexivity.
Qed.

(** The default board. *)
Lemma initial_kings_witness :
  is_game_over "W" fresh = false /\ is_game_over "B" fresh = false.
Proof.
  apply (initial_kings 8 4 4 boot fresh); first [closed | lia].
Defined.

(** ** Sliding pieces and the cells in between *)

(** X3. For a rook-shaped or bishop-shaped move between two cells inside the
    bounds, [is_clear_path] returns [True] iff every cell strictly between
    them, one unit step after the other from the origin, is empty; the
    out-of-bounds exit of its loop is never the one that rejects. *)
Theorem is_clear_path_empty_cells (b : Board) (o t : Position) :
  rook_condition (delta o t) \/ bishop_condition (delta o t) ->
  is_within_bounds b o = true ->
  is_within_bounds b t = true ->
  (is_clear_path b o t = true
   <-> forall i, 1 <= i < distance o t -> get_piece b (interior o t i) = None).
Proof.
  intros Hshape Ho Ht. rewrite (is_clear_path_shape b o t Hshape). split.
  - intros H i Hi. apply (H i Hi).
  - intros H i Hi. split; [|apply (H i Hi)].
    apply interior_within_bounds; assumption.
Qed.

(** The rook's line of [test_is_clear_path], from (0,0,0) to (0,3,0). *)
Lemma is_clear_path_empty_cells_witness :
  is_clear_path (board empty_board) (0, 0, 0) (0, 3, 0) = true
  <-> forall i, 1 <= i < distance (0, 0, 0) (0, 3, 0) ->
        get_piece (board empty_board) (interior (0, 0, 0) (0, 3, 0) i) = None.
Proof.
  apply (is_clear_path_empty_cells (board empty_board) (0, 0, 0) (0, 3, 0)).
  - left. cbn. lia.
  - reflexivity.
  - reflexivity.
Defined.

(** X4. A rook, a bishop or a queen never passes over a piece: on a
    rook-shaped or bishop-shaped line, if some cell strictly between the
    piece and the destination is occupied, the move is rejected, whatever
    stands on the destination. *)
Theorem sliding_blocked (s : State) (self : ref) (t : Position) (i : Z) (r : ref) :
  kind (objs s self) = Rook \/ kind (objs s self) = Bishop
  \/ kind (objs s self) = Queen ->
  rook_condition (delta (position (objs s self)) t)
  \/ bishop_condition (delta (position (objs s self)) t) ->
  1 <= i < distance (position (objs s self)) t ->
  get_piece (board s) (interior (position (objs s self)) t i) = Some r ->
  is_valid_move s self t = false.
Proof.
  intros Hkind Hshape Hi Hocc.
  assert (Hpath : is_clear_path (board s) (position (objs s self)) t = false).
  { destruct (is_clear_path (board s) (position (objs s self)) t) eqn:E;
      [|reflexivity].
    destruct (proj1 (is_clear_path_shape (board s) _ _ Hshape) E i Hi)
      as [_ Hempty].
    congruence. }
  unfold is_valid_move.
  destruct (negb _); [reflexivity|].
  destruct (Position_eqb _ _); [reflexivity|].
  unfold _is_valid_move.
  destruct Hkind as [-> | [-> | ->]];
    unfold Rook_is_valid_move, Bishop_is_valid_move, Queen_is_valid_move;
    revert Hpath;
    destruct (position (objs s self)) as [[fx fy] fz];
    destruct t as [[tx ty] tz]; intros ->;
    match goal with |- (if ?c then _ else _) = _ => destruct c; reflexivity end.
Qed.

(** The queen of [test_queen_blocked_path]: a pawn at (1,0,0) stands between
    (0,0,0) and (3,0,0). *)
Lemma sliding_blocked_witness :
  let s := put "P" "B" (1, 0, 0) (put "Q" "W" (0, 0, 0) empty_board) in
  is_valid_move s 0%nat (3, 0, 0) = false.
Proof.
  intros s. apply (sliding_blocked s 0%nat (3, 0, 0) 1 1%nat).
  - right. right. closed.
  - left. change (rook_condition (3, 0, 0)). cbn. lia.
  - change (1 <= 1 < 3). lia.
  - closed.
Defined.
